(** * A shallow embedding of htmap's map controller ([htmap/maps.py]) and
    component runner ([htmap/run/run.py]). *)

From Stdlib Require Import String Ascii List ZArith QArith Qround Lia Bool.
From Stdlib Require PrimFloat.
Close Scope Q_scope.
Import ListNotations.
Open Scope string_scope.

(** ** Python exceptions raised along the modelled paths *)

Inductive py_error :=
| MapWasRemoved
| FileNotFoundError
| TimeoutError
| OutputNotFound
| TypeError
| ValueError
| KeyError
| IndexError
| CannotRenameMap.

Scheme Equality for py_error.

(** Fallible Python code returns either a value or a raised exception. *)
Inductive result (A : Type) :=
| Ok (a : A)
| Err (e : py_error).
Arguments Ok {A} a.
Arguments Err {A} e.

Definition bind {A B} (r : result A) (k : A -> result B) : result B :=
  match r with
  | Ok a => k a
  | Err e => Err e
  end.

Notation "x <- r ;; k" := (bind r (fun x => k))
  (at level 61, r at next level, right associativity).

(** [l1] is [l2] with some elements dropped, the rest kept in order. *)
Inductive subseq {A : Type} : list A -> list A -> Prop :=
| subseq_nil : subseq [] []
| subseq_skip x l1 l2 : subseq l1 l2 -> subseq l1 (x :: l2)
| subseq_take x l1 l2 : subseq l1 l2 -> subseq (x :: l1) (x :: l2).

(** ** [pathlib.PurePath.stem] *)
Module Paths.

(** Index of the last ['.'] in a name, as [str.rfind('.')] (None for -1). *)
Fixpoint rfind_dot (s : string) : option nat :=
  match s with
  | EmptyString => None
  | String c rest =>
      match rfind_dot rest with
      | Some i => Some (S i)
      | None => if Ascii.eqb c "."%char then Some 0 else None
      end
  end.

(** [stem]: [name[:i]] when [0 < i < len(name) - 1], the whole name otherwise. *)
Definition stem (name : string) : string :=
  match rfind_dot name with
  | Some i =>
      if Nat.ltb 0 i && Nat.ltb i (String.length name - 1)
      then substring 0 i name
      else name
  | None => name
  end.

(** The name of a hash's result artifact, [f'{h}.out']. *)
Definition out_name (h : string) : string := h ++ ".out".

End Paths.

(** ** The job status enum of [maps.py] *)
Module Status.

Inductive t := IDLE | RUNNING | REMOVED | COMPLETED | HELD
             | TRANSFERRING_OUTPUT | SUSPENDED.

Scheme Equality for t.

(** [Status(v)]: the IntEnum constructor, [ValueError] on an unknown value. *)
Definition of_Z (v : Z) : result t :=
  match v with
  | 1%Z => Ok IDLE
  | 2%Z => Ok RUNNING
  | 3%Z => Ok REMOVED
  | 4%Z => Ok COMPLETED
  | 5%Z => Ok HELD
  | 6%Z => Ok TRANSFERRING_OUTPUT
  | 7%Z => Ok SUSPENDED
  | _ => Err ValueError
  end.

Definition all : list t :=
  [IDLE; RUNNING; REMOVED; COMPLETED; HELD; TRANSFERRING_OUTPUT; SUSPENDED].

End Status.

(** ** The map controller's state *)

(** A [Map] instance: its id, its [cluster_ids] (the batch ids; the source
    tests them against [None]), its [hashes] and the [_is_removed] flag. *)
Record Map := mkMap {
  map_id : string;
  cluster_ids : option (list Z);
  hashes : list string;
  is_removed : bool
}.

(** The outputs directory as [iterdir] sees it: the names of its entries, or
    [None] when the directory does not exist. *)
Definition outputs_dir := option (list string).

Definition iterdir (d : outputs_dir) : result (list string) :=
  match d with
  | Some names => Ok names
  | None => Err FileNotFoundError
  end.

(** [done = set(f.stem for f in self._outputs_dir.iterdir())], as a membership test. *)
Definition in_done (names : list string) (h : string) : bool :=
  existsb (fun f => String.eqb (Paths.stem f) h) names.

(** [Map._missing_hashes] *)
Definition missing_hashes (m : Map) (d : outputs_dir) : result (list string) :=
  names <- iterdir d ;;
  Ok (filter (fun h => negb (in_done names h)) (hashes m)).

(** [Map._completed_hashes] *)
Definition completed_hashes (m : Map) (d : outputs_dir) : result (list string) :=
  names <- iterdir d ;;
  Ok (filter (fun h => in_done names h) (hashes m)).

(** [Map.is_done] *)
Definition is_done (m : Map) (d : outputs_dir) : result bool :=
  miss <- missing_hashes m d ;;
  Ok (Nat.eqb (length miss) 0).

(** ** Python's [str] of an [int] (decimal, with a leading [-] when negative) *)

Definition digit (n : N) : ascii := ascii_of_nat (48 + N.to_nat n).

Fixpoint dec_aux (fuel : nat) (n : N) (acc : string) : string :=
  match fuel with
  | O => acc
  | S f =>
      let acc' := String (digit (n mod 10)%N) acc in
      if (n <? 10)%N then acc' else dec_aux f (n / 10)%N acc'
  end.

Definition str_N (n : N) : string := dec_aux (S (N.size_nat n)) n "".

Definition str_Z (z : Z) : string :=
  match z with
  | Z0 => "0"
  | Zpos p => str_N (Npos p)
  | Zneg p => "-" ++ str_N (Npos p)
  end.

(** ** The Status Tracker: [Map._requirements] and [Map._query] *)

(** A ClassAd returned by the scheduler, with only the projected fields. *)
Definition classad := list (string * Z).

(** [classad[key]], [KeyError] when the attribute is absent. *)
Definition classad_get (ad : classad) (key : string) : result Z :=
  match find (fun kv => String.eqb (fst kv) key) ad with
  | Some (_, v) => Ok v
  | None => Err KeyError
  end.

(** [Map._requirements]: the generator [for cid in self.cluster_ids] raises
    [TypeError] when [cluster_ids] is [None]. *)
Definition requirements_of (cids : option (list Z)) (requirements : option string)
  : result string :=
  match cids with
  | None => Err TypeError
  | Some l =>
      let base := "(" ++ String.concat " || " (map (fun cid => "ClusterId==" ++ str_Z cid) l) ++ ")" in
      let extra := match requirements with
                   | Some r => " && " ++ r
                   | None => ""
                   end in
      Ok (base ++ extra)
  end.

Section Schedd.

(** The scheduler's [schedd.xquery(requirements, projection)]. *)
Variable xquery : string -> list string -> result (list classad).

(** [Map._query]. The guard [if self.cluster_ids is None: yield from ()]
    yields nothing and does not return, so execution goes on to
    [_requirements] and [xquery]. *)
Definition query (m : Map) (requirements : option string)
    (projection : option (list string)) : result (list classad) :=
  let guard_yield : list classad :=
    match cluster_ids m with None => [] | Some _ => [] end in
  let projection := match projection with None => [] | Some p => p end in
  req <- requirements_of (cluster_ids m) requirements ;;
  q <- xquery req projection ;;
  Ok (app guard_yield q).

(** [Status(classad['JobStatus']) for classad in query] *)
Fixpoint job_statuses (ads : list classad) : result (list Status.t) :=
  match ads with
  | [] => Ok []
  | ad :: rest =>
      v <- classad_get ad "JobStatus" ;;
      s <- Status.of_Z v ;;
      ss <- job_statuses rest ;;
      Ok (s :: ss)
  end.

(** A [collections.Counter] over statuses. *)
Definition counter := Status.t -> nat.

Definition counter_of (ss : list Status.t) : counter :=
  fun s => count_occ Status.t_eq_dec ss s.

Definition counter_set (c : counter) (k : Status.t) (v : nat) : counter :=
  fun s => if Status.t_beq s k then v else c s.

(** [Map.status_counts] *)
Definition status_counts (m : Map) (d : outputs_dir) : result counter :=
  ads <- query m None (Some ["JobStatus"]) ;;
  ss <- job_statuses ads ;;
  let c := counter_of ss in
  comp <- completed_hashes m d ;;
  Ok (counter_set c Status.COMPLETED (length comp)).

End Schedd.

(** ** [_protect_map_after_remove] and [_protector] *)

(** What [inspect.getmembers(Map)] sees for each attribute defined in the
    class body: a plain function, a [property] or a [classmethod]. *)
Inductive member_kind := Function | Property | ClassMethod.

Scheme Equality for member_kind.

(** The attributes of [class Map], in source order. *)
Definition Map_members : list (string * member_kind) :=
  [ ("__init__", Function); ("recover", ClassMethod); ("__repr__", Function);
    ("__len__", Function); ("_map_dir", Property); ("_inputs_dir", Property);
    ("_outputs_dir", Property); ("_input_file_paths", Property);
    ("_output_file_paths", Property); ("_remove_from_queue", Function);
    ("_rm_map_dir", Function); ("_clean_outputs_dir", Function);
    ("_item_to_hash", Function); ("__getitem__", Function);
    ("_missing_hashes", Property); ("_completed_hashes", Property);
    ("is_done", Property); ("is_running", Property); ("wait", Function);
    ("get", Function); ("__iter__", Function); ("iter", Function);
    ("iter_with_inputs", Function); ("iter_as_available", Function);
    ("iter_as_available_with_inputs", Function); ("_requirements", Function);
    ("_query", Function); ("status_counts", Function); ("status", Function);
    ("hold_reasons", Function); ("_act", Function); ("remove", Function);
    ("hold", Function); ("release", Function); ("pause", Function);
    ("resume", Function); ("vacate", Function); ("_edit", Function);
    ("set_memory", Function); ("set_disk", Function); ("_iter_output", Function);
    ("_iter_error", Function); ("output", Function); ("error", Function);
    ("tail", Function); ("rerun", Function); ("rerun_incomplete", Function);
    ("_rerun", Function); ("rename", Function) ].

(** [not key.startswith('_')] *)
Definition is_public (key : string) : bool :=
  match key with
  | String c _ => negb (Ascii.eqb c "_"%char)
  | EmptyString => true
  end.

(** [_protect_map_after_remove]: the members selected by
    [inspect.isfunction] whose name is public get wrapped by [_protector];
    the flag records whether the attribute ends up wrapped. *)
Definition protect_map_after_remove (members : list (string * member_kind))
  : list (string * bool) :=
  map (fun km => (fst km, member_kind_beq (snd km) Function && is_public (fst km)))
      members.

Definition Map_protected : list (string * bool) :=
  protect_map_after_remove Map_members.

Definition is_wrapped (tbl : list (string * bool)) (name : string) : bool :=
  match find (fun kb => String.eqb (fst kb) name) tbl with
  | Some (_, b) => b
  | None => false
  end.

Section Protect.

(** Whatever the map operations read and write besides the [Map] object. *)
Variable W : Type.

(** A method body: it runs on the map and the world, and returns its result
    with the new map and world. *)
Definition method (R : Type) := Map -> W -> result R * Map * W.

(** [_protector(method)]: [_protect] tests [self._is_removed] first and
    raises [MapWasRemoved]; only on a live map does it call [method]. *)
Definition protector {R} (body : method R) : method R :=
  fun m w =>
    if is_removed m then (Err MapWasRemoved, m, w) else body m w.

(** Calling attribute [name] on [m]: through [_protect] when it was wrapped. *)
Definition invoke {R} (tbl : list (string * bool)) (name : string)
    (body : method R) : method R :=
  if is_wrapped tbl name then protector body else body.

End Protect.

(** The bodies of a few members, over the outputs directory as the world. *)
Definition is_done_body : method outputs_dir bool :=
  fun m d => (is_done m d, m, d).

Definition len_body : method outputs_dir nat :=
  fun m d => (Ok (length (hashes m)), m, d).

(** [Map.remove]'s effect on the map object and the outputs directory:
    [_rm_map_dir] deletes the map directory, [_is_removed] is set. *)
Definition remove_body : method outputs_dir unit :=
  fun m d =>
    (Ok tt, mkMap (map_id m) (cluster_ids m) (hashes m) true, None).

(** ** [Map.get] *)

(** [self.hashes[item]] with Python's negative indexing. *)
Definition item_to_hash (m : Map) (item : Z) : result string :=
  let n := Z.of_nat (length (hashes m)) in
  let i := if (item <? 0)%Z then (item + n)%Z else item in
  if ((0 <=? i) && (i <? n))%Z then
    match nth_error (hashes m) (Z.to_nat i) with
    | Some h => Ok h
    | None => Err IndexError
    end
  else Err IndexError.

Section Get.

(** What [htio.load_object] reads back from a result artifact. *)
Variable V : Type.
Variable load_object : string -> result V.

(** Whether a path exists [t] whole seconds after the call started. *)
Variable exists_at : string -> nat -> bool.

(** Modelled from the spec: [utils.wait_for_path_to_exist], which is not
    under src/. "Non-blocking when timeout <= 0 (pure existence check);
    otherwise polls until the artifact exists or the timeout elapses, then
    fails with TimeoutError", polling once a second. The result is [None]
    when the fuel runs out before the wait ends, paired with the number of
    seconds slept. *)
Fixpoint wait_for_path_to_exist (path : string) (timeout : option Z)
    (fuel t : nat) : option (result unit) * nat :=
  if exists_at path t then (Some (Ok tt), t)
  else
    match timeout with
    | Some to =>
        if (to <=? 0)%Z then (Some (Err TimeoutError), t)
        else if (Z.of_nat t >=? to)%Z then (Some (Err TimeoutError), t)
        else match fuel with
             | O => (None, t)
             | S f => wait_for_path_to_exist path timeout f (S t)
             end
    | None =>
        match fuel with
        | O => (None, t)
        | S f => wait_for_path_to_exist path timeout f (S t)
        end
    end.

(** [Map.get(item, timeout)] on the outputs directory [outputs]; the second
    component is the number of seconds slept. *)
Definition get (outputs : string) (m : Map) (item : Z) (timeout : option Z)
    (fuel : nat) : option (result V) * nat :=
  match item_to_hash m item with
  | Err e => (Some (Err e), 0)
  | Ok h =>
      let path := outputs ++ "/" ++ Paths.out_name h in
      match wait_for_path_to_exist path timeout fuel 0 with
      | (Some (Err TimeoutError), t) =>
          match timeout with
          | Some to =>
              if (to <=? 0)%Z then (Some (Err OutputNotFound), t)
              else (Some (Err TimeoutError), t)
          | None => (Some (Err TypeError), t)
          end
      | (Some (Err e), t) => (Some (Err e), t)
      | (Some (Ok _), t) => (Some (load_object path), t)
      | (None, t) => (None, t)
      end
  end.

End Get.

(** ** The component runner, [htmap/run/run.py] *)
Module Runner.

(** A Python exception object: the name [format_exception_only] prints for
    its type, its message, and whether its class derives from [Exception]
    (and not only from [BaseException], as [SystemExit] and
    [KeyboardInterrupt] do). *)
Record exn := mkExn {
  exn_type : string;
  exn_msg : string;
  exn_is_Exception : bool
}.

(** A traceback entry: the code object's file name and name, and the line. *)
Record frame := mkFrame {
  f_filename : string;
  f_lineno : nat;
  f_name : string
}.

(** A [traceback.FrameSummary] as [skip_first] builds it; [fs_lookup_line]
    is [os.path.exists(fname)]. *)
Record frame_summary := mkFrameSummary {
  fs_filename : string;
  fs_lineno : nat;
  fs_name : string;
  fs_lookup_line : bool
}.

(** [node_info]: hostname, IP address and the UTC start time. *)
Definition node_info := (string * string * string)%type.

Section Run.

Variable V : Type.

(** [ComponentOk] and [ComponentError] *)
Record component_error := mkComponentError {
  ce_input_hash : string;
  ce_exception : exn;
  ce_traceback : list string;
  ce_node_info : node_info;
  ce_working_dir_contents : list string;
  ce_stack_summary : list frame_summary
}.

Inductive component_result :=
| ComponentOk (input_hash : string) (output : V)
| ComponentError (e : component_error).

(** How the body of the [try] in [main] ends: with the callable's return
    value, or with an exception and the frames it unwound below [main]
    ([load_func], [load_args_and_kwargs] or the user's callable, and
    whatever they called). *)
Inductive try_outcome :=
| Returned (output : V)
| Raised (e : exn) (below : list frame).

(** [main.__code__.co_filename]: the path [run.py] was started from. *)
Variable run_file : string.

(** The frame of [main] itself, at the line of the [try] body that was
    running when the exception went through it. *)
Definition main_frame (lineno : nat) : frame :=
  mkFrame run_file lineno "main".

(** [os.path.exists] on the worker. *)
Variable path_exists : string -> bool.

(** [traceback.walk_tb(e.__traceback__)] starts at the frame of [main],
    where the exception was caught. *)
Definition walk_tb (main_lineno : nat) (below : list frame) : list frame :=
  main_frame main_lineno :: below.

(** [skip_first]: the line [next(iterator)] is commented out, so every
    frame of [walk_tb] is summarised. *)
Definition skip_first (tb : list frame) : list frame_summary :=
  map (fun fr => mkFrameSummary (f_filename fr) (f_lineno fr) (f_name fr)
                                (path_exists (f_filename fr)))
      tb.

(** [traceback.format_exception_only(type, value)] *)
Definition format_exception_only (e : exn) : list string :=
  if String.eqb (exn_msg e) "" then [exn_type e ++ String "010"%char ""]
  else [exn_type e ++ ": " ++ exn_msg e ++ String "010"%char ""].

(** [cloudpickle.dump(output, file)]: [None] when the result pickles,
    [Some e] when pickling raises [e] (an unpicklable return value or
    exception, such as a generator). *)
Variable dump : component_result -> option exn.

(** What a result file holds: a complete pickle of a result, or the
    truncated content left when [cloudpickle.dump] raised. *)
Inductive artifact :=
| Pickled (r : component_result)
| Incomplete.

(** The files written to the sandbox: file name and content. *)
Definition writes := list (string * artifact).

(** [save_output(arg_hash, output)]: [open(mode = 'wb')] creates
    [<hash>.out] before [cloudpickle.dump] runs; an exception of [dump]
    propagates. *)
Definition save_output (input_hash : string) (result : component_result)
  : writes * option exn :=
  match dump result with
  | None => ([(input_hash ++ ".out", Pickled result)], None)
  | Some e => ([(input_hash ++ ".out", Incomplete)], Some e)
  end.

(** [main(input_hash)]: the files it writes, and the exception that
    escapes it, if any. [ni] and [contents] are what [get_node_info] and
    [get_working_dir_contents] returned at its start; [main_lineno] is
    the line of [main] the [try] body was on when it raised. *)
Definition main (input_hash : string) (ni : node_info) (contents : list string)
    (main_lineno : nat) (body : try_outcome) : writes * option exn :=
  match body with
  | Returned output =>
      save_output input_hash (ComponentOk input_hash output)
  | Raised e below =>
      if exn_is_Exception e then
        let stack_summ := skip_first (walk_tb main_lineno below) in
        let result := ComponentError (mkComponentError
                        input_hash e (format_exception_only e) ni contents
                        stack_summ) in
        save_output input_hash result
      else ([], Some e)
  end.

End Run.

End Runner.

(** ** The Rerun Engine: [Map.rerun_incomplete] and [Map._rerun] *)
Module Rerun.

(** One entry of the durable item-data bundle; [d['hash']] is [item_hash]. *)
Record item := mkItem {
  item_hash : string;
  item_args : string
}.

(** Calls made on the scheduler. *)
Inductive sched_call :=
| Act (action : string) (requirements : string)
| SubmitCall (submit : string) (itemdata : list item).

(** The controller's world: the map object, the result files of the
    outputs directory with their bytes, the durable item data and
    submission template, the scheduler calls made so far and the cluster
    id the scheduler hands out next. *)
Record ctl := mkCtl {
  c_map : Map;
  c_outputs : option (list (string * list Byte.byte));
  c_itemdata : list item;
  c_submit : string;
  c_calls : list sched_call;
  c_next_cluster : Z
}.

Definition names_of (d : option (list (string * list Byte.byte))) : outputs_dir :=
  option_map (map fst) d.

(** [_remove_from_queue] = [_act(JobAction.Remove)] *)
Definition remove_from_queue (c : ctl) : result unit * ctl :=
  match requirements_of (cluster_ids (c_map c)) None with
  | Err e => (Err e, c)
  | Ok req =>
      (Ok tt, mkCtl (c_map c) (c_outputs c) (c_itemdata c) (c_submit c)
                    (app (c_calls c) [Act "Remove" req]) (c_next_cluster c))
  end.

(** [{d['hash']: d for d in itemdata}] looked up at [h]: the last entry
    with that hash wins. *)
Definition by_hash (itemdata : list item) (h : string) : result item :=
  match find (fun d => String.eqb (item_hash d) h) (rev itemdata) with
  | Some d => Ok d
  | None => Err KeyError
  end.

Fixpoint map_result {A B} (f : A -> result B) (l : list A) : result (list B) :=
  match l with
  | [] => Ok []
  | x :: xs => y <- f x ;; ys <- map_result f xs ;; Ok (y :: ys)
  end.

(** [mapping.execute_submit(submit_obj, new_itemdata)] followed by
    [submit_result.cluster()]: the scheduler records the submission and
    answers the next cluster id. *)
Definition execute_submit (c : ctl) (submit : string) (items : list item)
  : Z * ctl :=
  (c_next_cluster c,
   mkCtl (c_map c) (c_outputs c) (c_itemdata c) (c_submit c)
         (app (c_calls c) [SubmitCall submit items]) (c_next_cluster c + 1)).

(** [self.cluster_ids.append(cid)] *)
Definition append_cluster (c : ctl) (cid : Z) : result unit * ctl :=
  let m := c_map c in
  match cluster_ids m with
  | None => (Err TypeError, c)
  | Some l =>
      (Ok tt, mkCtl (mkMap (map_id m) (Some (app l [cid])) (hashes m) (is_removed m))
                    (c_outputs c) (c_itemdata c) (c_submit c) (c_calls c)
                    (c_next_cluster c))
  end.

(** [Map._rerun(hashes)] *)
Definition rerun_hashes (hs : list string) (c : ctl) : result unit * ctl :=
  match remove_from_queue c with
  | (Err e, c1) => (Err e, c1)
  | (Ok _, c1) =>
      let itemdata := c_itemdata c1 in
      match map_result (by_hash itemdata) hs with
      | Err e => (Err e, c1)
      | Ok new_itemdata =>
          let submit_obj := c_submit c1 in
          let '(cid, c2) := execute_submit c1 submit_obj new_itemdata in
          append_cluster c2 cid
      end
  end.

(** [Map.rerun_incomplete] *)
Definition rerun_incomplete (c : ctl) : result unit * ctl :=
  match missing_hashes (c_map c) (names_of (c_outputs c)) with
  | Err e => (Err e, c)
  | Ok miss => rerun_hashes miss c
  end.

End Rerun.

(** ** [Map.iter_as_available] *)
Module IterAsAvailable.

Section Iter.

Variable V : Type.
Variable load_object : string -> result V.

(** Whether a path exists [t] whole seconds after the call started. *)
Variable exists_at : string -> nat -> bool.

(** How the generator stops: it returns, raises, or is still running
    when the fuel runs out. *)
Inductive stop := Returned | Raised (e : py_error) | Running.

(** One scan of [for path in copy(paths)]: the objects yielded, the
    exception that stopped the scan if any, and the paths still pending. *)
Fixpoint scan (t : nat) (todo pending : list string)
  : list V * option py_error * list string :=
  match todo with
  | [] => ([], None, pending)
  | p :: rest =>
      if negb (exists_at p t) then scan t rest pending
      else
        let pending' := remove string_dec p pending in
        match load_object p with
        | Err e => ([], Some e, pending')
        | Ok obj =>
            let '(objs, err, pend) := scan t rest pending' in
            (obj :: objs, err, pend)
        end
  end.

(** [while len(paths) > 0: ...], with [t] the seconds since [start_time]:
    after each scan, [if timeout is not None and time.time() > start_time
    + timeout: break], else [time.sleep(1)]. *)
Fixpoint loop (timeout : option Z) (fuel : nat) (paths : list string) (t : nat)
  : list V * stop :=
  match paths with
  | [] => ([], Returned)
  | _ =>
      let '(objs, err, pending) := scan t paths paths in
      let rest :=
        match err with
        | Some e => ([], Raised e)
        | None =>
            match timeout with
            | Some to => if (Z.of_nat t >? to)%Z then ([], Returned)
                         else match fuel with
                              | O => ([], Running)
                              | S f => loop timeout f pending (S t)
                              end
            | None => match fuel with
                      | O => ([], Running)
                      | S f => loop timeout f pending (S t)
                      end
            end
        end in
      (objs ++ fst rest, snd rest)%list
  end.

(** [set(self._output_file_paths)], taken in the order [nodup] leaves it;
    Python's set order depends on the hash seed. *)
Definition iter_as_available (outputs : string) (m : Map) (timeout : option Z)
    (fuel : nat) : list V * stop :=
  loop timeout fuel
       (nodup string_dec (map (fun h => outputs ++ "/" ++ Paths.out_name h) (hashes m)))
       0.

End Iter.

End IterAsAvailable.

(** ** [Map.set_memory], [Map.set_disk] and [Map._edit] *)
Module Edit.


(** The argument types [Union[str, int, float]]. *)
Inductive py_value :=
| PyStr (s : string)
| PyInt (z : Z)
| PyFloat (f : PrimFloat.float).

Section Edits.

(** Python's [str] of a float ([repr]'s shortest round-trip digits). *)
Variable float_str : PrimFloat.float -> string.

(** The string [f'{v}'] builds, for a number. *)
Definition num_str (v : py_value) : string :=
  match v with
  | PyStr s => s
  | PyInt z => str_Z z
  | PyFloat f => float_str f
  end.

(** [isinstance(v, (int, float))] *)
Definition is_number (v : py_value) : bool :=
  match v with PyStr _ => false | _ => true end.

(** [schedd.edit(requirements, attr, value)] *)
Record edit_call := mkEdit {
  e_requirements : string;
  e_attr : string;
  e_value : string
}.

(** [Map._edit(attr, value)]: the scheduler edit it issues. *)
Definition edit (m : Map) (attr value : string) : result edit_call :=
  req <- requirements_of (cluster_ids m) None ;;
  Ok (mkEdit req attr value).

(** [Map.set_memory] *)
Definition set_memory (m : Map) (memory : py_value) : result edit_call :=
  let memory := if is_number memory then num_str memory ++ "MB" else num_str memory in
  edit m "RequestMemory" memory.

(** [Map.set_disk] *)
Definition set_disk (m : Map) (disk : py_value) : result edit_call :=
  let disk := if is_number disk then num_str disk ++ "MB" else num_str disk in
  edit m "RequestDisk" disk.

End Edits.

End Edit.

(** ** More of [Map]: [is_running], [wait], [__getitem__], [iter] *)

(** [Map.is_running]:
    [any(v != 0 for k, v in self.status_counts().items() if k != Status.COMPLETED)].
    The property itself is not wrapped, but [self.status_counts] is: it goes
    through [_protector]. A status that is not a key of the counter has no
    item, and would count 0, so testing every status for a non-zero count is
    the same test. *)
Definition is_running (xquery : string -> list string -> result (list classad))
    (m : Map) (d : outputs_dir) : result bool :=
  c <- fst (fst (invoke outputs_dir Map_protected "status_counts"
                   (fun m d => (status_counts xquery m d, m, d)) m d)) ;;
  Ok (existsb (fun s => negb (Status.t_beq s Status.COMPLETED) && negb (Nat.eqb (c s) 0))
              Status.all).

Section Wait.

(** The outputs directory at the [k]-th check of the loop (the first check
    is [k = 0]; one [time.sleep(1)] separates two checks). *)
Variable dir_at : nat -> outputs_dir.

(** [time.time() - start_time] at the [k]-th check, in seconds. The clock
    is left abstract: sleeps last at least a second and the scans take time,
    so it is only known to be at least [k] where that is assumed. *)
Variable elapsed : nat -> Q.

(** The [while True] loop of [Map.wait]: count the missing hashes, stop when
    there are none, raise [TimeoutError] when
    [time.time() - timeout > start_time], that is when the elapsed time
    exceeds [timeout], else [time.sleep(1)]. The result is [None] when the
    fuel runs out, paired with the number of the last check. *)
Fixpoint wait_loop (m : Map) (timeout : option Q) (fuel k : nat)
  : option (result unit) * nat :=
  match missing_hashes m (dir_at k) with
  | Err e => (Some (Err e), k)
  | Ok miss =>
      if Nat.eqb (length miss) 0 then (Some (Ok tt), k)
      else if match timeout with
              | Some to => negb (Qle_bool (elapsed k) to)
              | None => false
              end
      then (Some (Err TimeoutError), k)
      else match fuel with
           | O => (None, k)
           | S f => wait_loop m timeout f (S k)
           end
  end.

(** [Map.wait(timeout)]; the progress bar only displays counts. [wait] is
    wrapped by [_protector]. *)
Definition wait (m : Map) (timeout : option Q) (fuel : nat) : option (result unit) * nat :=
  if is_wrapped Map_protected "wait" && is_removed m then (Some (Err MapWasRemoved), 0)
  else wait_loop m timeout fuel 0.

End Wait.

Section Iter.

Variable V : Type.
Variable load_object : string -> result V.
Variable exists_at : string -> nat -> bool.

(** [Map.__getitem__(item)] = [self.get(item, timeout = 0)]. *)
Definition getitem (outputs : string) (m : Map) (item : Z) (fuel : nat)
  : option (result V) * nat :=
  (* [__getitem__] is not wrapped, [self.get] is: [_protect] runs first. *)
  if is_wrapped Map_protected "get" && is_removed m then (Some (Err MapWasRemoved), 0)
  else get V load_object exists_at outputs m item (Some 0%Z) fuel.

(** The [for] loop of [Map.iter]: for each output path in input order, wait
    for it (each wait with its own timeout, from the moment it starts), load
    it and yield it; [t] is the time since the iteration started. *)
Fixpoint iter_loop (timeout : option Z) (fuel : nat) (paths : list string) (t : nat)
  : list V * IterAsAvailable.stop :=
  match paths with
  | [] => ([], IterAsAvailable.Returned)
  | p :: rest =>
      match wait_for_path_to_exist (fun q s => exists_at q (t + s)) p timeout fuel 0 with
      | (Some (Ok _), s) =>
          match load_object p with
          | Ok out =>
              let '(outs, st) := iter_loop timeout fuel rest (t + s) in
              (out :: outs, st)
          | Err e => ([], IterAsAvailable.Raised e)
          end
      | (Some (Err e), _) => ([], IterAsAvailable.Raised e)
      | (None, _) => ([], IterAsAvailable.Running)
      end
  end.

(** [Map._output_file_paths] *)
Definition output_file_paths (outputs : string) (m : Map) : list string :=
  map (fun h => outputs ++ "/" ++ Paths.out_name h) (hashes m).

(** [Map.iter(timeout = timeout)] with the default callback. [iter] is
    wrapped by [_protector], which raises [MapWasRemoved] at the call,
    before the generator is created. *)
Definition iter (outputs : string) (m : Map) (timeout : option Z) (fuel : nat)
  : list V * IterAsAvailable.stop :=
  if is_wrapped Map_protected "iter" && is_removed m
  then ([], IterAsAvailable.Raised MapWasRemoved)
  else iter_loop timeout fuel (output_file_paths outputs m) 0.

End Iter.

(** ** More of the Rerun Engine: [Map.rerun] and the scheduler actions *)
Module Admin.

(** Modelled from the spec: [utils.clean_dir], which is not under src/
    ("rerun() clears the entire Output Store for this map"): the outputs
    directory is left empty. *)
Definition clean_outputs_dir (c : Rerun.ctl) : Rerun.ctl :=
  Rerun.mkCtl (Rerun.c_map c) (Some []) (Rerun.c_itemdata c) (Rerun.c_submit c)
              (Rerun.c_calls c) (Rerun.c_next_cluster c).

(** [Map.rerun]: [self._clean_outputs_dir(); self.rerun_incomplete()] *)
Definition rerun (c : Rerun.ctl) : result unit * Rerun.ctl :=
  Rerun.rerun_incomplete (clean_outputs_dir c).

(** [Map._act(action)]: one scheduler action scoped to the map's cluster ids. *)
Definition act (action : string) (c : Rerun.ctl) : result unit * Rerun.ctl :=
  match requirements_of (cluster_ids (Rerun.c_map c)) None with
  | Err e => (Err e, c)
  | Ok req =>
      (Ok tt, Rerun.mkCtl (Rerun.c_map c) (Rerun.c_outputs c) (Rerun.c_itemdata c)
                          (Rerun.c_submit c) (app (Rerun.c_calls c) [Rerun.Act action req])
                          (Rerun.c_next_cluster c))
  end.

(** [Map.hold], [release], [pause], [resume] and [vacate]. *)
Definition hold := act "Hold".
Definition release := act "Release".
Definition pause := act "Suspend".
Definition resume := act "Continue".
Definition vacate := act "Vacate".

End Admin.

(** ** [Map.remove] and the [MAPS] registry; the checks at the start of
    [Map.rename] *)
Module Lifecycle.

(** The map directories that exist, the process-wide [MAPS] dict, and the
    scheduler calls made. *)
Record world := mkWorld {
  w_dirs : list string;
  w_registry : list (string * Map);
  w_calls : list Rerun.sched_call
}.

(** [MAPS.pop(key)]: [KeyError] when the key is absent. *)
Definition registry_pop (reg : list (string * Map)) (key : string)
  : result (list (string * Map)) :=
  if existsb (fun kv => String.eqb (fst kv) key) reg
  then Ok (filter (fun kv => negb (String.eqb (fst kv) key)) reg)
  else Err KeyError.

Definition set_removed (m : Map) : Map :=
  mkMap (map_id m) (cluster_ids m) (hashes m) true.

(** [Map.remove]: [_remove_from_queue()], [_rm_map_dir()]
    ([shutil.rmtree], [FileNotFoundError] when the directory is gone),
    [self._is_removed = True], [MAPS.pop(self.map_id)]. *)
Definition remove (m : Map) (w : world) : result unit * Map * world :=
  match requirements_of (cluster_ids m) None with
  | Err e => (Err e, m, w)
  | Ok req =>
      let w1 := mkWorld (w_dirs w) (w_registry w) (app (w_calls w) [Rerun.Act "Remove" req]) in
      if existsb (String.eqb (map_id m)) (w_dirs w1) then
        let w2 := mkWorld (filter (fun d => negb (String.eqb (map_id m) d)) (w_dirs w1))
                          (w_registry w1) (w_calls w1) in
        let m2 := set_removed m in
        match registry_pop (w_registry w2) (map_id m) with
        | Err e => (Err e, m2, w2)
        | Ok reg => (Ok tt, m2, mkWorld (w_dirs w2) reg (w_calls w2))
        end
      else (Err FileNotFoundError, m, w1)
  end.

(** The first two checks of [Map.rename(map_id)]:
    [if map_id == self.map_id: raise CannotRenameMap(...)] and
    [if not self.is_done: raise CannotRenameMap(f'... {self.status_counts()}')];
    the message is built before the raise, so [status_counts] runs first.
    [Ok tt] means the rename goes on past them. *)
Definition rename_checks (xquery : string -> list string -> result (list classad))
    (m : Map) (d : outputs_dir) (new_id : string) : result unit :=
  if String.eqb new_id (map_id m) then Err CannotRenameMap
  else
    done <- is_done m d ;;
    if done then Ok tt
    else (c <- status_counts xquery m d ;; Err CannotRenameMap).

End Lifecycle.

(** ** The query of [Map.hold_reasons] *)
Section HoldReasons.

Variable xquery : string -> list string -> result (list classad).

(** [f'JobStatus=={Status.HELD}'], formatted through [Status.__str__]. *)
Variable held_str : string.

(** [self._query(requirements = self._requirements(f'JobStatus=={Status.HELD}'),
    projection = ['ProcId', 'HoldReason', 'HoldReasonCode'])]; the rows
    built from the answer are not modelled. *)
Definition hold_reasons_query (m : Map) : result (list classad) :=
  inner <- requirements_of (cluster_ids m) (Some ("JobStatus==" ++ held_str)) ;;
  query xquery m (Some inner) (Some ["ProcId"; "HoldReason"; "HoldReasonCode"]).

End HoldReasons.

(** * Properties *)

(** ** Lemmas on the completed and missing hash lists *)

Lemma filter_subseq {A} (f : A -> bool) (l : list A) : subseq (filter f l) l.
Proof.
  induction l as [|x l IH]; simpl.
  - constructor.
  - destruct (f x); constructor; exact IH.
Qed.

Lemma completed_hashes_eq (m : Map) (names : list string) :
  completed_hashes m (Some names) = Ok (filter (in_done names) (hashes m)).
Proof. reflexivity. Qed.

Lemma missing_hashes_eq (m : Map) (names : list string) :
  missing_hashes m (Some names) = Ok (filter (fun h => negb (in_done names h)) (hashes m)).
Proof. reflexivity. Qed.

Lemma counter_set_same (c : counter) (k : Status.t) (v : nat) :
  counter_set c k v k = v.
Proof. unfold counter_set. destruct k; reflexivity. Qed.

Lemma counter_set_other (c : counter) (k s : Status.t) (v : nat) :
  s <> k -> counter_set c k v s = c s.
Proof.
  unfold counter_set. intros Hne.
  destruct s, k; simpl; congruence.
Qed.

Lemma status_counts_eq (xquery : string -> list string -> result (list classad))
    (m : Map) (names : list string) (ads : list classad) (sts : list Status.t) :
  query xquery m None (Some ["JobStatus"]) = Ok ads ->
  job_statuses ads = Ok sts ->
  status_counts xquery m (Some names)
  = Ok (counter_set (counter_of sts) Status.COMPLETED
                    (length (filter (in_done names) (hashes m)))).
Proof.
  intros Hq Hs. unfold status_counts. rewrite Hq. simpl. rewrite Hs. reflexivity.
Qed.

(** ** C1 *)

(** C1: [status_counts] tabulates the statuses the scheduler query returns and
    then overrides the [COMPLETED] count with the number of hashes whose
    result file is in the outputs directory, whatever the scheduler said
    about completed jobs. *)
Theorem status_counts_completed_override
    (xquery : string -> list string -> result (list classad))
    (m : Map) (names : list string) (ads : list classad) (sts : list Status.t)
    (Hq : query xquery m None (Some ["JobStatus"]) = Ok ads)
    (Hs : job_statuses ads = Ok sts) :
  exists counts,
    status_counts xquery m (Some names) = Ok counts /\
    counts Status.COMPLETED = length (filter (in_done names) (hashes m)) /\
    (forall s, s <> Status.COMPLETED -> counts s = count_occ Status.t_eq_dec sts s).
Proof.
  eexists. split; [exact (status_counts_eq xquery m names ads sts Hq Hs)|].
  split.
  - apply counter_set_same.
  - intros s Hne. rewrite counter_set_other by exact Hne. reflexivity.
Qed.

(** The scheduler of the spec's scenario: it reports three jobs, all of them
    completed. *)
Definition three_completed_xquery (req : string) (proj : list string)
  : result (list classad) :=
  Ok [[("JobStatus", 4%Z)]; [("JobStatus", 4%Z)]; [("JobStatus", 4%Z)]].

Definition abc_map : Map := mkMap "abc" (Some [12%Z]) ["a"; "b"; "c"] false.

(** The scenario: hashes [a; b; c], only [a.out] and [c.out] written. *)
Lemma status_counts_completed_override_witness :
  exists counts,
    status_counts three_completed_xquery abc_map (Some ["a.out"; "c.out"]) = Ok counts /\
    counts Status.COMPLETED = 2 /\
    (forall s, s <> Status.COMPLETED ->
       counts s = count_occ Status.t_eq_dec
                    [Status.COMPLETED; Status.COMPLETED; Status.COMPLETED] s).
Proof.
  destruct (status_counts_completed_override three_completed_xquery abc_map
              ["a.out"; "c.out"]
              [[("JobStatus", 4%Z)]; [("JobStatus", 4%Z)]; [("JobStatus", 4%Z)]]
              [Status.COMPLETED; Status.COMPLETED; Status.COMPLETED]
              eq_refl eq_refl) as [counts [H1 [H2 H3]]].
  exists counts. split; [exact H1|]. split; [exact H2|exact H3].
Defined.

(** The scenario for every scheduler answer: [missing_hashes == [b]],
    [COMPLETED] counts 2 and [is_done] is false. *)
Example abc_scenario
    (xquery : string -> list string -> result (list classad))
    (ads : list classad) (sts : list Status.t) :
  query xquery abc_map None (Some ["JobStatus"]) = Ok ads ->
  job_statuses ads = Ok sts ->
  missing_hashes abc_map (Some ["a.out"; "c.out"]) = Ok ["b"] /\
  is_done abc_map (Some ["a.out"; "c.out"]) = Ok false /\
  exists counts,
    status_counts xquery abc_map (Some ["a.out"; "c.out"]) = Ok counts /\
    counts Status.COMPLETED = 2.
Proof.
  intros Hq Hs. split; [reflexivity|]. split; [reflexivity|].
  eexists. split; [exact (status_counts_eq xquery abc_map _ ads sts Hq Hs)|].
  apply counter_set_same.
Qed.

(** ** C2 *)

(** C2: for every listing of the outputs directory, the completed and the
    missing hash lists are the two halves of a stable partition of the map's
    hashes: disjoint, together exactly the hashes, each in input order. Both
    are functions of the listing alone (no cached cursor); when the
    directory is gone both raise [FileNotFoundError]. *)
Theorem completed_missing_partition (m : Map) (d : outputs_dir) :
  match d with
  | None =>
      completed_hashes m d = Err FileNotFoundError /\
      missing_hashes m d = Err FileNotFoundError
  | Some names =>
      exists comp miss,
        completed_hashes m d = Ok comp /\
        missing_hashes m d = Ok miss /\
        partition (in_done names) (hashes m) = (comp, miss) /\
        (forall h, In h comp -> ~ In h miss) /\
        (forall h, In h (hashes m) <-> In h comp \/ In h miss) /\
        subseq comp (hashes m) /\
        subseq miss (hashes m) /\
        length comp + length miss = length (hashes m)
  end.
Proof.
  destruct d as [names|]; [|split; reflexivity].
  exists (filter (in_done names) (hashes m)),
         (filter (fun h => negb (in_done names h)) (hashes m)).
  split; [reflexivity|]. split; [reflexivity|].
  split; [apply partition_as_filter|].
  split.
  { intros h Hc Hm. apply filter_In in Hc as [_ Hc].
    apply filter_In in Hm as [_ Hm]. rewrite Hc in Hm. discriminate. }
  split.
  { intros h. rewrite !filter_In. split.
    - intros Hin. destruct (in_done names h) eqn:E; [left|right]; auto.
    - intros [[H _]|[H _]]; exact H. }
  split; [apply filter_subseq|]. split; [apply filter_subseq|].
  symmetry. apply (partition_length (in_done names)). apply partition_as_filter.
Qed.

(** ** When the outputs directory holds only [<hash>.out] files *)

Lemma rfind_dot_app (s1 s2 : string) :
  Paths.rfind_dot (s1 ++ s2) =
  match Paths.rfind_dot s2 with
  | Some i => Some (String.length s1 + i)
  | None => Paths.rfind_dot s1
  end.
Proof.
  induction s1 as [|c s1 IH]; simpl.
  - destruct (Paths.rfind_dot s2); reflexivity.
  - rewrite IH. destruct (Paths.rfind_dot s2); simpl; [reflexivity|].
    destruct (Paths.rfind_dot s1); reflexivity.
Qed.

Lemma substring_app_prefix (s1 s2 : string) :
  substring 0 (String.length s1) (s1 ++ s2) = s1.
Proof.
  induction s1 as [|c s1 IH]; simpl.
  - destruct s2; reflexivity.
  - rewrite IH. reflexivity.
Qed.

Lemma string_length_app (s1 s2 : string) :
  String.length (s1 ++ s2) = String.length s1 + String.length s2.
Proof. induction s1 as [|c s1 IH]; simpl; [reflexivity|]. rewrite IH. reflexivity. Qed.

Lemma stem_out_name (h : string) : h <> "" -> Paths.stem (Paths.out_name h) = h.
Proof.
  intros Hne. unfold Paths.stem, Paths.out_name.
  rewrite rfind_dot_app. simpl. rewrite Nat.add_0_r, string_length_app. simpl.
  destruct h as [|c h']; [congruence|]. simpl.
  replace (String.length h' + 4 - 0) with (String.length h' + 4) by lia.
  assert (Hlt : Nat.ltb (S (String.length h')) (String.length h' + 4) = true)
    by (apply Nat.ltb_lt; lia).
  rewrite Hlt. simpl. f_equal. apply substring_app_prefix.
Qed.

Lemma in_done_out_names (written : list string) (h : string) :
  Forall (fun w => w <> "") written ->
  in_done (map Paths.out_name written) h = existsb (fun w => String.eqb w h) written.
Proof.
  induction 1 as [|w ws Hw _ IH]; simpl; [reflexivity|].
  rewrite stem_out_name by exact Hw. rewrite IH. reflexivity.
Qed.

(** With the Output Store's layout, a hash counts as completed exactly when
    its [<hash>.out] artifact was written. *)
Lemma completed_hashes_out_names (m : Map) (written : list string) :
  Forall (fun w => w <> "") written ->
  completed_hashes m (Some (map Paths.out_name written))
  = Ok (filter (fun h => existsb (fun w => String.eqb w h) written) (hashes m)).
Proof.
  intros Hw. rewrite completed_hashes_eq. f_equal.
  apply filter_ext. intros h. apply in_done_out_names, Hw.
Qed.

(** ** C3 *)

Ltac find_in_list := repeat (first [left; reflexivity | right]).

(** After [remove], the property [is_done] is not wrapped: it runs and fails
    with [FileNotFoundError] on the deleted directory, and [len(m)] still
    answers. *)
Lemma removed_map_guard_counterexample :
  let '(r, m1, d1) := invoke outputs_dir Map_protected "remove" remove_body
                        abc_map (Some ["a.out"; "c.out"]) in
  r = Ok tt /\
  is_removed m1 = true /\
  fst (fst (invoke outputs_dir Map_protected "is_done" is_done_body m1 d1))
    = Err FileNotFoundError /\
  fst (fst (invoke outputs_dir Map_protected "__len__" len_body m1 d1)) = Ok 3.
Proof. vm_compute. repeat split. Qed.

Lemma wrapped_public_functions :
  map fst (filter snd Map_protected) =
  [ "wait"; "get"; "iter"; "iter_with_inputs"; "iter_as_available";
    "iter_as_available_with_inputs"; "status_counts"; "status"; "hold_reasons";
    "remove"; "hold"; "release"; "pause"; "resume"; "vacate"; "set_memory";
    "set_disk"; "output"; "error"; "tail"; "rerun"; "rerun_incomplete"; "rename" ].
Proof. reflexivity. Qed.

(** C3 (amended): every attribute of [Map] that is a plain function with a
    public name (no leading underscore) is wrapped by [_protector]; called
    on a removed map it raises [MapWasRemoved] before its body runs, leaving
    the map and the world as they were (so a second [remove] issues no
    scheduler action). Properties ([is_done],
    [is_running]), the classmethod [recover] and the dunder methods are not
    wrapped. *)
Theorem public_functions_guarded_after_remove
    (W R : Type) (name : string) (body : method W R) (m : Map) (w : W)
    (Hmem : In (name, Function) Map_members)
    (Hpub : is_public name = true)
    (Hrem : is_removed m = true) :
  invoke W Map_protected name body m w = (Err MapWasRemoved, m, w).
Proof.
  unfold invoke.
  assert (Hw : is_wrapped Map_protected name = true).
  { simpl in Hmem.
    repeat (destruct Hmem as [Hmem|Hmem];
            [inversion Hmem; subst; vm_compute in Hpub |- *; congruence |]).
    contradiction. }
  rewrite Hw. unfold protector. rewrite Hrem. reflexivity.
Qed.

Definition removed_abc_map : Map := mkMap "abc" (Some [12%Z]) ["a"; "b"; "c"] true.

(** Calling [remove] again on a removed map raises [MapWasRemoved] without
    issuing a second [Remove] action, deleting anything or touching [MAPS]. *)
Lemma public_functions_guarded_after_remove_witness :
  In ("get", Function) Map_members /\ is_public "get" = true /\
  is_removed removed_abc_map = true /\
  invoke outputs_dir Map_protected "get" len_body removed_abc_map None
  = (Err MapWasRemoved, removed_abc_map, None) /\
  invoke Lifecycle.world Map_protected "remove" Lifecycle.remove removed_abc_map
    (Lifecycle.mkWorld ["abc"] [("abc", removed_abc_map)] [])
  = (Err MapWasRemoved, removed_abc_map,
     Lifecycle.mkWorld ["abc"] [("abc", removed_abc_map)] []).
Proof.
  assert (Hin : In ("get", Function) Map_members) by (simpl; find_in_list).
  assert (Hin' : In ("remove", Function) Map_members) by (simpl; find_in_list).
  split; [exact Hin|]. split; [reflexivity|]. split; [reflexivity|]. split.
  - apply (public_functions_guarded_after_remove outputs_dir nat "get" len_body
             removed_abc_map None Hin); reflexivity.
  - apply (public_functions_guarded_after_remove Lifecycle.world unit "remove"
             Lifecycle.remove removed_abc_map
             (Lifecycle.mkWorld ["abc"] [("abc", removed_abc_map)] []) Hin');
      reflexivity.
Defined.

(** ** C4 *)

Lemma wait_absent_until_deadline (exists_at : string -> nat -> bool)
    (path : string) (to : Z) (fuel t : nat) :
  (0 < to)%Z ->
  t <= Z.to_nat to ->
  Z.to_nat to - t <= fuel ->
  (forall t', t <= t' <= Z.to_nat to -> exists_at path t' = false) ->
  wait_for_path_to_exist exists_at path (Some to) fuel t
  = (Some (Err TimeoutError), Z.to_nat to).
Proof.
  intros Hpos. revert t.
  induction fuel as [|f IH]; intros t Ht Hf Habs; simpl.
  - rewrite (Habs t) by lia.
    assert (Hle : (to <=? 0)%Z = false) by (apply Z.leb_gt; lia).
    assert (Hge : (Z.of_nat t >=? to)%Z = true) by (apply Z.geb_le; lia).
    rewrite Hle, Hge. f_equal. lia.
  - rewrite (Habs t) by lia.
    assert (Hle : (to <=? 0)%Z = false) by (apply Z.leb_gt; lia).
    rewrite Hle.
    destruct (Z.of_nat t >=? to)%Z eqn:Hge.
    + apply Z.geb_le in Hge. f_equal. lia.
    + rewrite Z.geb_leb in Hge. apply Z.leb_gt in Hge.
      apply IH; [lia | lia |]. intros t' Ht'. apply Habs. lia.
Qed.

(** C4: with a timeout [<= 0], [get] looks once and never sleeps: a present
    artifact is loaded and returned, an absent one raises [OutputNotFound].
    With a positive timeout and the artifact absent until the deadline, it
    raises [TimeoutError]. ([utils.wait_for_path_to_exist] is modelled from
    the spec.) *)
Theorem get_timeout_behaviour (V : Type) (load_object : string -> result V)
    (exists_at : string -> nat -> bool) (outputs : string) (m : Map)
    (item : Z) (h : string) (fuel : nat)
    (Hh : item_to_hash m item = Ok h) :
  let path := outputs ++ "/" ++ Paths.out_name h in
  (forall to, (to <= 0)%Z ->
     get V load_object exists_at outputs m item (Some to) fuel
     = (Some (if exists_at path 0 then load_object path else Err OutputNotFound), 0)) /\
  (forall to, (0 < to)%Z -> Z.to_nat to <= fuel ->
     (forall t, t <= Z.to_nat to -> exists_at path t = false) ->
     get V load_object exists_at outputs m item (Some to) fuel
     = (Some (Err TimeoutError), Z.to_nat to)).
Proof.
  intros path. unfold get. rewrite Hh. fold path. split.
  - intros to Hto.
    destruct fuel as [|f]; simpl;
      destruct (exists_at path 0); try reflexivity;
      assert (Hle : (to <=? 0)%Z = true) by (apply Z.leb_le; lia);
      rewrite Hle; reflexivity.
  - intros to Hto Hf Habs.
    rewrite (wait_absent_until_deadline exists_at path to fuel 0 Hto) by
      (try lia; intros t' Ht'; apply Habs; lia).
    assert (Hle : (to <=? 0)%Z = false) by (apply Z.leb_gt; lia).
    rewrite Hle. reflexivity.
Qed.

Lemma get_timeout_behaviour_witness :
  item_to_hash abc_map 1 = Ok "b" /\
  get nat (fun _ => Ok 7) (fun p _ => String.eqb p "out/a.out") "out" abc_map 1
      (Some 0%Z) 5 = (Some (Err OutputNotFound), 0) /\
  get nat (fun _ => Ok 7) (fun p _ => String.eqb p "out/a.out") "out" abc_map 1
      (Some 3%Z) 5 = (Some (Err TimeoutError), 3).
Proof.
  destruct (get_timeout_behaviour nat (fun _ => Ok 7) (fun p _ => String.eqb p "out/a.out")
              "out" abc_map 1 "b" 5 eq_refl) as [H0 Hpos].
  split; [reflexivity|]. split.
  - exact (H0 0%Z (Z.le_refl 0)).
  - apply (Hpos 3%Z); [reflexivity | simpl; lia | intros t _; reflexivity].
Defined.

(** ** C5 and C6: the component runner *)


Definition user_frame : Runner.frame := Runner.mkFrame "/home/user/work.py" 7 "f".

Definition value_error_x : Runner.exn := Runner.mkExn "ValueError" "x" true.


Definition node_h : Runner.node_info := ("worker.example.org", "10.0.0.5", "2018-06-01 12:00:00").




(** C6: the stack summary stored in the [ComponentError] starts with the
    frame of the runner's own [main], not with the user's code: the wrapper
    frame is not elided. *)
Theorem runner_stack_summary_keeps_main_frame (V : Type) (run_file : string)
    (path_exists : string -> bool) (dump : Runner.component_result V -> option Runner.exn)
    (h : string) (ni : Runner.node_info)
    (contents : list string) (lineno : nat) (e : Runner.exn)
    (below : list Runner.frame)
    (He : Runner.exn_is_Exception e = true) :
  exists ce,
    Runner.main V run_file path_exists dump h ni contents lineno (Runner.Raised V e below)
    = Runner.save_output V dump h (Runner.ComponentError V ce) /\
    Runner.ce_stack_summary ce
    = Runner.mkFrameSummary run_file lineno "main" (path_exists run_file)
      :: Runner.skip_first path_exists below.
Proof.
  simpl. rewrite He. eexists. split; reflexivity.
Qed.

Lemma runner_stack_summary_keeps_main_frame_witness :
  Runner.exn_is_Exception value_error_x = true /\
  exists ce,
    Runner.main nat "run.py" (fun _ => true) (fun _ => None) "h" node_h ["func"; "h.in"] 165
      (Runner.Raised nat value_error_x [user_frame])
    = ([("h.out", Runner.Pickled nat (Runner.ComponentError nat ce))], None) /\
    Runner.ce_stack_summary ce
    = [Runner.mkFrameSummary "run.py" 165 "main" true;
       Runner.mkFrameSummary "/home/user/work.py" 7 "f" true].
Proof.
  split; [reflexivity|].
  destruct (runner_stack_summary_keeps_main_frame nat "run.py" (fun _ => true) (fun _ => None)
              "h" node_h ["func"; "h.in"] 165 value_error_x [user_frame] eq_refl)
    as [ce [Hmain Hsum]].
  exists ce. split; [exact Hmain | exact Hsum].
Defined.

(** ** C7 *)

Lemma by_hash_hash (itemdata : list Rerun.item) (h : string) (d : Rerun.item) :
  Rerun.by_hash itemdata h = Ok d -> Rerun.item_hash d = h.
Proof.
  unfold Rerun.by_hash.
  destruct (find _ _) as [d'|] eqn:E; [|discriminate].
  intros Hd. injection Hd as <-.
  apply find_some in E as [_ E]. apply String.eqb_eq, E.
Qed.

Lemma map_result_by_hash (itemdata : list Rerun.item) (hs : list string)
    (items : list Rerun.item) :
  Rerun.map_result (Rerun.by_hash itemdata) hs = Ok items ->
  map Rerun.item_hash items = hs.
Proof.
  revert items. induction hs as [|h hs IH]; simpl; intros items H.
  - injection H as <-. reflexivity.
  - destruct (Rerun.by_hash itemdata h) as [d|e] eqn:Ed; [|discriminate]. simpl in H.
    destruct (Rerun.map_result (Rerun.by_hash itemdata) hs) as [ds|e] eqn:Eds;
      [|discriminate].
    simpl in H. injection H as <-. simpl.
    rewrite (by_hash_hash _ _ _ Ed), (IH ds eq_refl). reflexivity.
Qed.

(** C7: a successful [rerun_incomplete] submits, with the stored template, the
    item data of exactly the hashes missing at the call, in input order; it
    leaves the outputs directory (names and bytes) as it was, and the
    cluster ids become the old ones followed by the one new id. The
    scheduler sees the [Remove] action for the whole map and then the
    submission. *)
Theorem rerun_incomplete_frame (c c' : Rerun.ctl)
    (Hrun : Rerun.rerun_incomplete c = (Ok tt, c')) :
  exists miss items old req,
    missing_hashes (Rerun.c_map c) (Rerun.names_of (Rerun.c_outputs c)) = Ok miss /\
    Rerun.map_result (Rerun.by_hash (Rerun.c_itemdata c)) miss = Ok items /\
    map Rerun.item_hash items = miss /\
    Rerun.c_outputs c' = Rerun.c_outputs c /\
    cluster_ids (Rerun.c_map c) = Some old /\
    cluster_ids (Rerun.c_map c') = Some (app old [Rerun.c_next_cluster c]) /\
    hashes (Rerun.c_map c') = hashes (Rerun.c_map c) /\
    requirements_of (cluster_ids (Rerun.c_map c)) None = Ok req /\
    Rerun.c_calls c' = app (Rerun.c_calls c)
                           [Rerun.Act "Remove" req; Rerun.SubmitCall (Rerun.c_submit c) items].
Proof.
  unfold Rerun.rerun_incomplete in Hrun.
  destruct (missing_hashes _ _) as [miss|e] eqn:Hmiss; [|discriminate].
  unfold Rerun.rerun_hashes, Rerun.remove_from_queue in Hrun.
  destruct (requirements_of (cluster_ids (Rerun.c_map c)) None) as [req|e] eqn:Hreq;
    [|discriminate].
  simpl in Hrun.
  destruct (Rerun.map_result (Rerun.by_hash (Rerun.c_itemdata c)) miss)
    as [items|e] eqn:Hitems; [|discriminate].
  unfold Rerun.execute_submit, Rerun.append_cluster in Hrun. simpl in Hrun.
  destruct (cluster_ids (Rerun.c_map c)) as [old|] eqn:Hcids; [|discriminate].
  injection Hrun as <-.
  exists miss, items, old, req.
  repeat split; try reflexivity; try assumption.
  - apply (map_result_by_hash _ _ _ Hitems).
  - simpl. rewrite <- app_assoc. reflexivity.
Qed.

Definition rerun_ctl : Rerun.ctl :=
  Rerun.mkCtl abc_map
    (Some [("a.out", [Byte.x01; Byte.x02]); ("c.out", [Byte.x03])])
    [Rerun.mkItem "a" "(1,)"; Rerun.mkItem "b" "(2,)"; Rerun.mkItem "c" "(3,)"]
    "executable = run.py" [] 13.

Lemma rerun_incomplete_frame_witness :
  exists c',
    Rerun.rerun_incomplete rerun_ctl = (Ok tt, c') /\
    Rerun.c_outputs c' = Rerun.c_outputs rerun_ctl /\
    cluster_ids (Rerun.c_map c') = Some [12%Z; 13%Z] /\
    Rerun.c_calls c' = [Rerun.Act "Remove" "(ClusterId==12)";
                        Rerun.SubmitCall "executable = run.py" [Rerun.mkItem "b" "(2,)"]].
Proof.
  eexists. split; [reflexivity|].
  destruct (rerun_incomplete_frame rerun_ctl _ eq_refl)
    as (miss & items & old & req & Hm & Hi & _ & Hout & Hold & Hcids & _ & Hreq & Hcalls).
  vm_compute in Hm. injection Hm as <-.
  vm_compute in Hi. injection Hi as <-.
  vm_compute in Hold. injection Hold as <-.
  vm_compute in Hreq. injection Hreq as <-.
  split; [exact Hout|]. split; [exact Hcids|]. exact Hcalls.
Defined.

(** ** C8 *)

(** With no cluster ids at all ([[]]), [_query] still asks the scheduler,
    with the requirements expression ["()"]. *)
Example query_empty_cluster_ids
    (xquery : string -> list string -> result (list classad)) :
  query xquery (mkMap "m" (Some []) [] false) None (Some ["JobStatus"])
  = xquery "()" ["JobStatus"].
Proof. unfold query. simpl. destruct (xquery "()" ["JobStatus"]); reflexivity. Qed.

(** C8: when the map's [cluster_ids] is [None], the guard [yield from ()]
    does not return, [_requirements] iterates [None], and the query raises
    [TypeError] whatever the scheduler would answer. *)
Theorem query_none_cluster_ids_raises
    (xquery : string -> list string -> result (list classad)) (m : Map)
    (requirements : option string) (projection : option (list string))
    (Hnone : cluster_ids m = None) :
  query xquery m requirements projection = Err TypeError.
Proof. unfold query. rewrite Hnone. reflexivity. Qed.

Definition no_batch_map : Map := mkMap "nobatch" None ["a"] false.

Definition empty_xquery (req : string) (proj : list string) : result (list classad) :=
  Ok [].

Lemma query_none_cluster_ids_raises_witness :
  cluster_ids no_batch_map = None /\
  query empty_xquery no_batch_map None (Some ["JobStatus"]) = Err TypeError /\
  status_counts empty_xquery no_batch_map (Some ["a.out"]) = Err TypeError.
Proof.
  split; [reflexivity|].
  assert (H : query empty_xquery no_batch_map None (Some ["JobStatus"]) = Err TypeError)
    by exact (query_none_cluster_ids_raises empty_xquery no_batch_map None
                (Some ["JobStatus"]) eq_refl).
  split; [exact H|]. unfold status_counts. rewrite H. reflexivity.
Defined.

(** ** C9 *)

Lemma scan_nothing_ready (V : Type) (load_object : string -> result V)
    (exists_at : string -> nat -> bool) (t : nat) (todo pending : list string) :
  (forall p, exists_at p t = false) ->
  IterAsAvailable.scan V load_object exists_at t todo pending = ([], None, pending).
Proof.
  intros Habs. induction todo as [|p rest IH]; simpl; [reflexivity|].
  rewrite Habs. simpl. exact IH.
Qed.

Lemma loop_nothing_ready (V : Type) (load_object : string -> result V)
    (exists_at : string -> nat -> bool) (to : Z) (fuel t : nat)
    (paths : list string) :
  (0 <= to)%Z ->
  paths <> [] ->
  t <= Z.to_nat to + 1 ->
  Z.to_nat to + 1 - t <= fuel ->
  (forall p t', exists_at p t' = false) ->
  IterAsAvailable.loop V load_object exists_at (Some to) fuel paths t
  = ([], IterAsAvailable.Returned).
Proof.
  intros Hto Hne Ht Hf Habs. revert t Ht Hf.
  induction fuel as [|f IH]; intros t Ht Hf;
    destruct paths as [|p ps]; try congruence; simpl; rewrite Habs; simpl;
    rewrite (scan_nothing_ready V load_object exists_at t ps (p :: ps) (fun q => Habs q t));
    simpl.
  - assert (Hgt : (Z.of_nat t >? to)%Z = true) by (apply Z.gtb_lt; lia).
    rewrite Hgt. reflexivity.
  - destruct (Z.of_nat t >? to)%Z eqn:Hgt; [reflexivity|].
    rewrite Z.gtb_ltb in Hgt. apply Z.ltb_ge in Hgt.
    rewrite IH by lia. reflexivity.
Qed.

Lemma nodup_nonempty {A} (dec : forall x y : A, {x = y} + {x <> y}) (l : list A) :
  l <> [] -> nodup dec l <> [].
Proof.
  destruct l as [|x l]; [congruence|]. intros _ Hnil.
  assert (Hin : In x (nodup dec (x :: l))) by (apply nodup_In; left; reflexivity).
  rewrite Hnil in Hin. exact Hin.
Qed.

(** C9: when no result file appears before the deadline, [iter_as_available]
    with a finite timeout stops by [break]: it yields nothing and returns
    normally instead of raising [TimeoutError], although results are still
    pending. *)
Theorem iter_as_available_timeout_returns (V : Type)
    (load_object : string -> result V) (exists_at : string -> nat -> bool)
    (outputs : string) (m : Map) (to : Z) (fuel : nat)
    (Hto : (0 <= to)%Z)
    (Hfuel : Z.to_nat to + 1 <= fuel)
    (Hhashes : hashes m <> [])
    (Habs : forall p t, exists_at p t = false) :
  IterAsAvailable.iter_as_available V load_object exists_at outputs m (Some to) fuel
  = ([], IterAsAvailable.Returned).
Proof.
  unfold IterAsAvailable.iter_as_available.
  apply loop_nothing_ready; try lia; [|exact Habs].
  apply nodup_nonempty. destruct (hashes m); [congruence|]. discriminate.
Qed.

Lemma iter_as_available_timeout_returns_witness :
  IterAsAvailable.iter_as_available nat (fun _ => Ok 7) (fun _ _ => false) "out"
    abc_map (Some 0%Z) 3
  = ([], IterAsAvailable.Returned).
Proof.
  apply (iter_as_available_timeout_returns nat (fun _ => Ok 7) (fun _ _ => false)
           "out" abc_map 0%Z 3); [lia | simpl; lia | discriminate | reflexivity].
Defined.

(** ** C10 *)

(** C10: a number given to [set_disk] becomes the string [str(v) + 'MB'] for
    the [RequestDisk] attribute, the same megabyte suffix [set_memory] puts
    on [RequestMemory]; a string is passed through unchanged. *)
Theorem set_disk_number_is_megabytes (float_str : PrimFloat.float -> string)
    (m : Map) (v : Edit.py_value) :
  Edit.set_disk float_str m v
  = Edit.edit m "RequestDisk"
      (if Edit.is_number v then Edit.num_str float_str v ++ "MB"
       else Edit.num_str float_str v) /\
  Edit.set_memory float_str m v
  = Edit.edit m "RequestMemory"
      (if Edit.is_number v then Edit.num_str float_str v ++ "MB"
       else Edit.num_str float_str v) /\
  (forall z, Edit.set_disk float_str m (Edit.PyInt z)
             = Edit.edit m "RequestDisk" (str_Z z ++ "MB")) /\
  (forall f, Edit.set_disk float_str m (Edit.PyFloat f)
             = Edit.edit m "RequestDisk" (float_str f ++ "MB")).
Proof. repeat split. Qed.

Example set_disk_100 :
  Edit.set_disk (fun _ => "") (mkMap "m" (Some [3%Z]) [] false) (Edit.PyInt 100)
  = Ok (Edit.mkEdit "(ClusterId==3)" "RequestDisk" "100MB").
Proof. reflexivity. Qed.

(** * Further properties of the controller *)

(** ** [is_running] and [is_done] *)

Lemma in_status_all (s : Status.t) : In s Status.all.
Proof. destruct s; simpl; tauto. Qed.

(** On a live map, [is_running] is true exactly when the scheduler reports
    some job in a status other than [COMPLETED]; the completed count taken
    from the outputs directory never makes a map "running". On a removed
    map it raises [MapWasRemoved], from the guarded [status_counts]. *)
Theorem is_running_iff_non_completed_job
    (xquery : string -> list string -> result (list classad))
    (m : Map) (names : list string) (ads : list classad) (sts : list Status.t)
    (Hq : query xquery m None (Some ["JobStatus"]) = Ok ads)
    (Hs : job_statuses ads = Ok sts) :
  is_running xquery m (Some names)
  = if is_removed m then Err MapWasRemoved
    else Ok (existsb (fun s => negb (Status.t_beq s Status.COMPLETED)) sts).
Proof.
  unfold is_running, invoke.
  replace (is_wrapped Map_protected "status_counts") with true by reflexivity.
  unfold protector. destruct (is_removed m); [reflexivity|]. cbn [fst].
  rewrite (status_counts_eq xquery m names ads sts Hq Hs). unfold bind.
  f_equal. apply Bool.eq_iff_eq_true. rewrite !existsb_exists. split.
  - intros [s [_ Hs']]. apply andb_true_iff in Hs' as [Hnc Hcnt].
    exists s. split; [|exact Hnc].
    assert (Hne : s <> Status.COMPLETED)
      by (intros ->; discriminate Hnc).
    rewrite counter_set_other in Hcnt by exact Hne.
    unfold counter_of in Hcnt. apply (count_occ_In Status.t_eq_dec).
    apply negb_true_iff, Nat.eqb_neq in Hcnt. lia.
  - intros [s [Hin Hnc]]. exists s. split; [apply in_status_all|].
    apply andb_true_iff. split; [exact Hnc|].
    assert (Hne : s <> Status.COMPLETED)
      by (intros ->; discriminate Hnc).
    rewrite counter_set_other by exact Hne. unfold counter_of.
    apply (count_occ_In Status.t_eq_dec) in Hin.
    apply negb_true_iff, Nat.eqb_neq. lia.
Qed.

Definition held_and_done_xquery (req : string) (proj : list string)
  : result (list classad) :=
  Ok [[("JobStatus", 5%Z)]; [("JobStatus", 4%Z)]].

Lemma is_running_iff_non_completed_job_witness :
  is_running held_and_done_xquery abc_map (Some ["a.out"; "c.out"]) = Ok true /\
  is_running three_completed_xquery abc_map (Some ["a.out"]) = Ok false /\
  is_running held_and_done_xquery removed_abc_map (Some ["a.out"]) = Err MapWasRemoved.
Proof.
  split; [|split].
  - exact (is_running_iff_non_completed_job held_and_done_xquery abc_map
             ["a.out"; "c.out"] [[("JobStatus", 5%Z)]; [("JobStatus", 4%Z)]]
             [Status.HELD; Status.COMPLETED] eq_refl eq_refl).
  - exact (is_running_iff_non_completed_job three_completed_xquery abc_map
             ["a.out"]
             [[("JobStatus", 4%Z)]; [("JobStatus", 4%Z)]; [("JobStatus", 4%Z)]]
             [Status.COMPLETED; Status.COMPLETED; Status.COMPLETED] eq_refl eq_refl).
  - exact (is_running_iff_non_completed_job held_and_done_xquery removed_abc_map
             ["a.out"] [[("JobStatus", 5%Z)]; [("JobStatus", 4%Z)]]
             [Status.HELD; Status.COMPLETED] eq_refl eq_refl).
Defined.

Lemma filter_nil_forallb {A} (f : A -> bool) (l : list A) :
  Nat.eqb (length (filter f l)) 0 = forallb (fun x => negb (f x)) l.
Proof.
  induction l as [|x l IH]; simpl; [reflexivity|].
  destruct (f x); simpl; [reflexivity|exact IH].
Qed.

(** With the Output Store's layout ([<hash>.out] files only), [is_done] holds
    exactly when every hash of the map has had its artifact written. *)
Theorem is_done_iff_all_written (m : Map) (written : list string)
    (Hw : Forall (fun w => w <> "") written) :
  is_done m (Some (map Paths.out_name written))
  = Ok (forallb (fun h => existsb (fun w => String.eqb w h) written) (hashes m)).
Proof.
  unfold is_done. rewrite missing_hashes_eq. simpl. f_equal.
  rewrite filter_nil_forallb.
  induction (hashes m) as [|h hs IH]; simpl; [reflexivity|].
  rewrite in_done_out_names, negb_involutive, IH by exact Hw. reflexivity.
Qed.

Lemma is_done_iff_all_written_witness :
  is_done abc_map (Some ["a.out"; "b.out"; "c.out"]) = Ok true.
Proof.
  exact (is_done_iff_all_written abc_map ["a"; "b"; "c"]
           ltac:(repeat constructor; discriminate)).
Defined.

(** ** [wait] *)

Lemma is_done_false_missing (m : Map) (d : outputs_dir) :
  is_done m d = Ok false ->
  exists miss, missing_hashes m d = Ok miss /\ Nat.eqb (length miss) 0 = false.
Proof.
  unfold is_done. destruct (missing_hashes m d) as [miss|e]; simpl; [|discriminate].
  intros H. injection H as H. exists miss. split; [reflexivity|exact H].
Qed.

Lemma is_done_true_missing (m : Map) (d : outputs_dir) :
  is_done m d = Ok true ->
  exists miss, missing_hashes m d = Ok miss /\ Nat.eqb (length miss) 0 = true.
Proof.
  unfold is_done. destruct (missing_hashes m d) as [miss|e]; simpl; [|discriminate].
  intros H. injection H as H. exists miss. split; [reflexivity|exact H].
Qed.

Lemma wait_loop_done_at (dir_at : nat -> outputs_dir) (elapsed : nat -> Q) (m : Map)
    (timeout : option Q) (k0 : nat) :
  (forall k, k < k0 -> is_done m (dir_at k) = Ok false) ->
  is_done m (dir_at k0) = Ok true ->
  (forall to, timeout = Some to -> forall k, k < k0 -> (elapsed k <= to)%Q) ->
  forall n fuel k, k + n = k0 -> n <= fuel ->
  wait_loop dir_at elapsed m timeout fuel k = (Some (Ok tt), k0).
Proof.
  intros Hbefore Hat Hto n.
  induction n as [|n IH]; intros fuel k Hk Hf.
  - rewrite Nat.add_0_r in Hk. subst k.
    destruct fuel; simpl; destruct (is_done_true_missing m _ Hat) as [miss [-> ->]];
      reflexivity.
  - assert (Hlt : k < k0) by lia.
    destruct fuel as [|f]; [lia|]. simpl.
    destruct (is_done_false_missing m _ (Hbefore k Hlt)) as [miss [-> ->]].
    destruct timeout as [to|] eqn:Et.
    + assert (Hle : Qle_bool (elapsed k) to = true)
        by (apply Qle_bool_iff, (Hto to eq_refl k Hlt)).
      rewrite Hle. apply IH; lia.
    + apply IH; lia.
Qed.

(** On a live map, [wait] returns at the first check [k0] at which no hash
    is missing, after [k0] sleeps, provided the elapsed time had not
    exceeded the timeout (if any) at an earlier check; a map that is done
    at the first check returns at once, whatever the timeout. *)
Theorem wait_returns_at_completion (dir_at : nat -> outputs_dir) (elapsed : nat -> Q)
    (m : Map) (timeout : option Q) (fuel k0 : nat)
    (Hlive : is_removed m = false)
    (Hbefore : forall k, k < k0 -> is_done m (dir_at k) = Ok false)
    (Hat : is_done m (dir_at k0) = Ok true)
    (Hto : forall to, timeout = Some to -> forall k, k < k0 -> (elapsed k <= to)%Q)
    (Hfuel : k0 <= fuel) :
  wait dir_at elapsed m timeout fuel = (Some (Ok tt), k0).
Proof.
  unfold wait. replace (is_wrapped Map_protected "wait") with true by reflexivity.
  rewrite Hlive. simpl andb. cbv iota.
  apply (wait_loop_done_at dir_at elapsed m timeout k0 Hbefore Hat Hto k0); lia.
Qed.

(** The outputs of [a], [b], [c] appear by the checks 0, 1 and 2. *)
Definition abc_dir_at (k : nat) : outputs_dir :=
  Some (firstn (S k) ["a.out"; "b.out"; "c.out"]).

(** A clock that runs half a second behind each check. *)
Definition slow_clock (k : nat) : Q := (inject_Z (Z.of_nat k) + (1 # 2))%Q.

Lemma wait_returns_at_completion_witness :
  wait abc_dir_at slow_clock abc_map (Some (inject_Z 5)) 10 = (Some (Ok tt), 2) /\
  wait (fun _ => Some ["a.out"; "b.out"; "c.out"]) slow_clock abc_map
    (Some (inject_Z (-3))) 0
  = (Some (Ok tt), 0).
Proof.
  split.
  - apply (wait_returns_at_completion abc_dir_at slow_clock abc_map (Some (inject_Z 5)) 10 2).
    + reflexivity.
    + intros k Hk. destruct k as [|[|k]]; [reflexivity|reflexivity|lia].
    + reflexivity.
    + intros to Hto k Hk. injection Hto as <-. apply Qle_bool_iff.
      destruct k as [|[|k]]; [reflexivity|reflexivity|lia].
    + lia.
  - apply (wait_returns_at_completion (fun _ => Some ["a.out"; "b.out"; "c.out"])
             slow_clock abc_map (Some (inject_Z (-3))) 0 0).
    + reflexivity.
    + intros k Hk. lia.
    + reflexivity.
    + intros to _ k Hk. lia.
    + lia.
Defined.

Lemma first_true (f : nat -> bool) (N : nat) :
  (exists k, k <= N /\ f k = true /\ forall j, j < k -> f j = false) \/
  (forall j, j <= N -> f j = false).
Proof.
  induction N as [|N IH].
  - destruct (f 0) eqn:E.
    + left. exists 0. split; [lia|]. split; [exact E|]. intros j Hj. lia.
    + right. intros j Hj. replace j with 0 by lia. exact E.
  - destruct IH as [[k [Hk [Hf Hbefore]]]|Hnone].
    + left. exists k. split; [lia|]. split; [exact Hf|exact Hbefore].
    + destruct (f (S N)) eqn:E.
      * left. exists (S N). split; [lia|]. split; [exact E|]. intros j Hj. apply Hnone. lia.
      * right. intros j Hj. destruct (Nat.eq_dec j (S N)) as [->|Hne]; [exact E|].
        apply Hnone. lia.
Qed.

Lemma wait_loop_times_out_at (dir_at : nat -> outputs_dir) (elapsed : nat -> Q) (m : Map)
    (to : Q) (k1 : nat) :
  (forall k, is_done m (dir_at k) = Ok false) ->
  (forall j, j < k1 -> (elapsed j <= to)%Q) ->
  (to < elapsed k1)%Q ->
  forall fuel k, k <= k1 -> k1 - k <= fuel ->
  wait_loop dir_at elapsed m (Some to) fuel k = (Some (Err TimeoutError), k1).
Proof.
  intros Hnd Hbefore Hafter fuel. induction fuel as [|f IH]; intros k Hk Hf.
  - assert (k = k1) by lia. subst k. simpl.
    destruct (is_done_false_missing m _ (Hnd k1)) as [miss [-> ->]].
    destruct (Qle_bool (elapsed k1) to) eqn:E; [|reflexivity].
    apply Qle_bool_iff in E. exfalso. exact (Qlt_not_le _ _ Hafter E).
  - simpl. destruct (is_done_false_missing m _ (Hnd k)) as [miss [-> ->]].
    destruct (Nat.eq_dec k k1) as [->|Hne].
    + destruct (Qle_bool (elapsed k1) to) eqn:E; [|reflexivity].
      apply Qle_bool_iff in E. exfalso. exact (Qlt_not_le _ _ Hafter E).
    + assert (E : Qle_bool (elapsed k) to = true)
        by (apply Qle_bool_iff, Hbefore; lia).
      rewrite E. apply IH; lia.
Qed.

(** When a live map never completes, [wait] with timeout [to] raises
    [TimeoutError] at the first check whose elapsed time exceeds [to]. As
    the [k]-th check comes at least [k] seconds after the start, that check
    comes after at most [floor(to) + 1] sleeps; it can come earlier, even
    before any sleep. *)
Theorem wait_times_out (dir_at : nat -> outputs_dir) (elapsed : nat -> Q) (m : Map)
    (to : Q) (fuel : nat)
    (Hlive : is_removed m = false)
    (Hnd : forall k, is_done m (dir_at k) = Ok false)
    (Hclock : forall k, (inject_Z (Z.of_nat k) <= elapsed k)%Q)
    (Hfuel : Z.to_nat (Qfloor to) + 1 <= fuel) :
  exists k1,
    k1 <= Z.to_nat (Qfloor to) + 1 /\
    (to < elapsed k1)%Q /\
    (forall j, j < k1 -> (elapsed j <= to)%Q) /\
    wait dir_at elapsed m (Some to) fuel = (Some (Err TimeoutError), k1).
Proof.
  set (N := Z.to_nat (Qfloor to) + 1).
  assert (HN : (to < elapsed N)%Q).
  { apply Qlt_le_trans with (inject_Z (Qfloor to + 1)); [apply Qlt_floor|].
    apply Qle_trans with (inject_Z (Z.of_nat N)); [|apply Hclock].
    rewrite <- Zle_Qle. unfold N. lia. }
  destruct (first_true (fun k => negb (Qle_bool (elapsed k) to)) N)
    as [[k1 [Hk1 [Hf Hbefore]]]|Hnone].
  - assert (Hafter : (to < elapsed k1)%Q).
    { apply Qnot_le_lt. intros Hle. apply Qle_bool_iff in Hle.
      rewrite Hle in Hf. discriminate. }
    assert (Hb : forall j, j < k1 -> (elapsed j <= to)%Q).
    { intros j Hj. specialize (Hbefore j Hj). apply negb_false_iff in Hbefore.
      apply Qle_bool_iff, Hbefore. }
    exists k1. split; [exact Hk1|]. split; [exact Hafter|]. split; [exact Hb|].
    unfold wait. replace (is_wrapped Map_protected "wait") with true by reflexivity.
    rewrite Hlive. simpl andb. cbv iota.
    apply (wait_loop_times_out_at dir_at elapsed m to k1 Hnd Hb Hafter); lia.
  - exfalso. specialize (Hnone N (le_n N)). apply negb_false_iff, Qle_bool_iff in Hnone.
    exact (Qlt_not_le _ _ HN Hnone).
Qed.

Lemma slow_clock_ge (k : nat) : (inject_Z (Z.of_nat k) <= slow_clock k)%Q.
Proof.
  unfold slow_clock. rewrite <- (Qplus_0_r (inject_Z (Z.of_nat k))) at 1.
  apply Qplus_le_r. apply Qle_bool_iff. reflexivity.
Qed.

(** With the clock half a second behind, a timeout of 2 fires at the check
    after 2 sleeps, and a timeout of 0 fires before any sleep. *)
Lemma wait_times_out_witness :
  (exists k1,
     k1 <= Z.to_nat (Qfloor (inject_Z 2)) + 1 /\
     (inject_Z 2 < slow_clock k1)%Q /\
     (forall j, j < k1 -> (slow_clock j <= inject_Z 2)%Q) /\
     wait (fun _ => Some ["a.out"]) slow_clock abc_map (Some (inject_Z 2)) 5
     = (Some (Err TimeoutError), k1)) /\
  wait (fun _ => Some ["a.out"]) slow_clock abc_map (Some (inject_Z 2)) 5
  = (Some (Err TimeoutError), 2) /\
  wait (fun _ => Some ["a.out"]) slow_clock abc_map (Some (inject_Z 0)) 5
  = (Some (Err TimeoutError), 0).
Proof.
  split; [|split; vm_compute; reflexivity].
  apply (wait_times_out (fun _ => Some ["a.out"]) slow_clock abc_map (inject_Z 2) 5).
  - reflexivity.
  - intros k. reflexivity.
  - exact slow_clock_ge.
  - vm_compute. lia.
Defined.

(** ** [_item_to_hash] and [__getitem__] *)

(** An index [i] with [0 <= i < len(m)] and its negative alias [i - len(m)]
    both name the [i]-th hash. *)
Theorem item_to_hash_negative_alias (m : Map) (i : Z)
    (Hi : (0 <= i < Z.of_nat (length (hashes m)))%Z) :
  item_to_hash m i = Ok (nth (Z.to_nat i) (hashes m) "") /\
  item_to_hash m (i - Z.of_nat (length (hashes m))) = Ok (nth (Z.to_nat i) (hashes m) "").
Proof.
  assert (Hn : nth_error (hashes m) (Z.to_nat i) = Some (nth (Z.to_nat i) (hashes m) "")).
  { apply nth_error_nth'. lia. }
  unfold item_to_hash. split.
  - assert (H1 : (i <? 0)%Z = false) by (apply Z.ltb_ge; lia).
    assert (H2 : ((0 <=? i) && (i <? Z.of_nat (length (hashes m))))%Z = true)
      by (apply andb_true_iff; split; [apply Z.leb_le | apply Z.ltb_lt]; lia).
    rewrite H1, H2, Hn. reflexivity.
  - assert (H1 : (i - Z.of_nat (length (hashes m)) <? 0)%Z = true) by (apply Z.ltb_lt; lia).
    rewrite H1.
    replace (i - Z.of_nat (length (hashes m)) + Z.of_nat (length (hashes m)))%Z with i by lia.
    assert (H2 : ((0 <=? i) && (i <? Z.of_nat (length (hashes m))))%Z = true)
      by (apply andb_true_iff; split; [apply Z.leb_le | apply Z.ltb_lt]; lia).
    rewrite H2, Hn. reflexivity.
Qed.

Lemma item_to_hash_negative_alias_witness :
  item_to_hash abc_map 1 = Ok "b" /\ item_to_hash abc_map (-2) = Ok "b".
Proof.
  exact (item_to_hash_negative_alias abc_map 1 ltac:(simpl; lia)).
Defined.

(** An index outside [-len(m) <= i < len(m)] raises [IndexError]. *)
Theorem item_to_hash_out_of_range (m : Map) (i : Z)
    (Hi : (i < - Z.of_nat (length (hashes m)) \/ Z.of_nat (length (hashes m)) <= i)%Z) :
  item_to_hash m i = Err IndexError.
Proof.
  unfold item_to_hash.
  destruct (i <? 0)%Z eqn:Hneg.
  - apply Z.ltb_lt in Hneg.
    assert (H : ((0 <=? i + Z.of_nat (length (hashes m))) &&
                 (i + Z.of_nat (length (hashes m)) <? Z.of_nat (length (hashes m))))%Z = false).
    { apply andb_false_iff. left. apply Z.leb_gt. lia. }
    rewrite H. reflexivity.
  - apply Z.ltb_ge in Hneg.
    assert (H : ((0 <=? i) && (i <? Z.of_nat (length (hashes m))))%Z = false).
    { apply andb_false_iff. right. apply Z.ltb_ge. lia. }
    rewrite H. reflexivity.
Qed.

Lemma item_to_hash_out_of_range_witness :
  item_to_hash abc_map 3 = Err IndexError /\ item_to_hash abc_map (-4) = Err IndexError.
Proof.
  split; apply item_to_hash_out_of_range; simpl; lia.
Defined.

(** [m[item]] never sleeps: on a removed map it raises [MapWasRemoved]
    (from the guarded [get]); otherwise an index out of range raises
    [IndexError], a present artifact is loaded, an absent one raises
    [OutputNotFound]. ([utils.wait_for_path_to_exist] is modelled from the
    spec.) *)
Theorem getitem_never_sleeps (V : Type) (load_object : string -> result V)
    (exists_at : string -> nat -> bool) (outputs : string) (m : Map) (item : Z)
    (fuel : nat) :
  getitem V load_object exists_at outputs m item fuel
  = if is_removed m then (Some (Err MapWasRemoved), 0)
    else match item_to_hash m item with
    | Err e => (Some (Err e), 0)
    | Ok h =>
        let path := outputs ++ "/" ++ Paths.out_name h in
        (Some (if exists_at path 0 then load_object path else Err OutputNotFound), 0)
    end.
Proof.
  unfold getitem. replace (is_wrapped Map_protected "get") with true by reflexivity.
  simpl andb. destruct (is_removed m); [reflexivity|].
  unfold get. destruct (item_to_hash m item) as [h|e]; [|reflexivity].
  destruct fuel; simpl; destruct (exists_at _ 0); reflexivity.
Qed.

(** ** [iter] and [iter_as_available] *)

(** When every output already exists, [iter] on a live map yields every
    output in input order (one per hash, duplicates included) and returns;
    on a removed map the call raises [MapWasRemoved] and yields nothing.
    ([utils.wait_for_path_to_exist] is modelled from the spec.) *)
Theorem iter_all_present_in_order (V : Type) (val : string -> V)
    (exists_at : string -> nat -> bool) (outputs : string) (m : Map)
    (timeout : option Z) (fuel : nat)
    (Hex : forall p, exists_at p 0 = true) :
  iter V (fun p => Ok (val p)) exists_at outputs m timeout fuel
  = if is_removed m then ([], IterAsAvailable.Raised MapWasRemoved)
    else (map val (output_file_paths outputs m), IterAsAvailable.Returned).
Proof.
  unfold iter. replace (is_wrapped Map_protected "iter") with true by reflexivity.
  simpl andb. destruct (is_removed m); [reflexivity|].
  generalize (output_file_paths outputs m) as paths.
  induction paths as [|p ps IH]; [reflexivity|].
  simpl. destruct fuel; simpl; rewrite Hex; simpl; rewrite IH; reflexivity.
Qed.

Lemma iter_all_present_in_order_witness :
  iter string (fun p => Ok p) (fun _ _ => true) "out" abc_map None 0
  = (["out/a.out"; "out/b.out"; "out/c.out"], IterAsAvailable.Returned).
Proof.
  exact (iter_all_present_in_order string (fun p => p) (fun _ _ => true) "out"
           abc_map None 0 (fun _ => eq_refl)).
Defined.

Definition inb (q : string) (l : list string) : bool := existsb (String.eqb q) l.

Lemma filter_remove (g : string -> bool) (p : string) (l : list string) :
  filter g (remove string_dec p l)
  = filter (fun q => g q && negb (String.eqb q p)) l.
Proof.
  induction l as [|q l IH]; simpl; [reflexivity|].
  destruct (string_dec p q) as [<-|Hne].
  - rewrite String.eqb_refl, andb_false_r. exact IH.
  - simpl. assert (Hqp : String.eqb q p = false) by (apply String.eqb_neq; congruence).
    rewrite Hqp, andb_true_r. destruct (g q); [f_equal|]; exact IH.
Qed.

Lemma scan_all_loads (V : Type) (val : string -> V) (exists_at : string -> nat -> bool)
    (t : nat) (todo pending : list string) :
  IterAsAvailable.scan V (fun p => Ok (val p)) exists_at t todo pending
  = (map val (filter (fun p => exists_at p t) todo), None,
     filter (fun q => negb (exists_at q t && inb q todo)) pending).
Proof.
  revert pending. induction todo as [|p rest IH]; intros pending; simpl.
  - f_equal. induction pending as [|q l IHl]; simpl; [reflexivity|].
    rewrite andb_false_r. simpl. f_equal. exact IHl.
  - destruct (exists_at p t) eqn:Ep; simpl.
    + rewrite IH. f_equal. rewrite filter_remove. apply filter_ext. intros q.
      destruct (String.eqb q p) eqn:Eq.
      * apply String.eqb_eq in Eq. subst q. rewrite Ep. simpl. rewrite andb_false_r. reflexivity.
      * simpl. rewrite andb_true_r. reflexivity.
    + rewrite IH. f_equal. apply filter_ext. intros q.
      destruct (String.eqb q p) eqn:Eq.
      * apply String.eqb_eq in Eq. subst q. rewrite Ep. reflexivity.
      * reflexivity.
Qed.

Lemma filter_inb_self (g : string -> bool) (l : list string) :
  filter (fun q => negb (g q && inb q l)) l = filter (fun q => negb (g q)) l.
Proof.
  apply filter_ext_in. intros q Hq.
  assert (Hin : inb q l = true)
    by (apply existsb_exists; exists q; split; [exact Hq | apply String.eqb_refl]).
  rewrite Hin, andb_true_r. reflexivity.
Qed.

Lemma loop_step_loads (V : Type) (val : string -> V) (exists_at : string -> nat -> bool)
    (timeout : option Z) (fuel : nat) (P : list string) (t : nat) :
  P <> [] ->
  IterAsAvailable.loop V (fun p => Ok (val p)) exists_at timeout fuel P t
  = let pending := filter (fun q => negb (exists_at q t)) P in
    let rest :=
      match timeout with
      | Some to => if (Z.of_nat t >? to)%Z then ([], IterAsAvailable.Returned)
                   else match fuel with
                        | O => ([], IterAsAvailable.Running)
                        | S f => IterAsAvailable.loop V (fun p => Ok (val p)) exists_at
                                   timeout f pending (S t)
                        end
      | None => match fuel with
                | O => ([], IterAsAvailable.Running)
                | S f => IterAsAvailable.loop V (fun p => Ok (val p)) exists_at
                           timeout f pending (S t)
                end
      end in
    (map val (filter (fun p => exists_at p t) P) ++ fst rest, snd rest)%list.
Proof.
  intros Hne. destruct P as [|p ps]; [congruence|].
  destruct fuel; cbn [IterAsAvailable.loop];
    rewrite scan_all_loads; try rewrite (filter_inb_self (fun q => exists_at q t)); reflexivity.
Qed.

(** When every output already exists, the loop of [iter_as_available]
    yields each distinct output once, in the order in which its path set
    iterates, in a single scan, and returns. [P] is that set enumerated in
    its iteration order, which Python leaves to the hash seed: the result
    holds for every order. *)
Theorem iter_as_available_all_present (V : Type) (val : string -> V)
    (exists_at : string -> nat -> bool) (outputs : string) (m : Map)
    (P : list string) (timeout : option Z) (fuel : nat)
    (HP : NoDup P) (Hset : forall p, In p P <-> In p (output_file_paths outputs m))
    (Hex : forall p, exists_at p 0 = true) (Hfuel : 0 < fuel) :
  IterAsAvailable.loop V (fun p => Ok (val p)) exists_at timeout fuel P 0
  = (map val P, IterAsAvailable.Returned).
Proof.
  clear HP Hset.
  destruct P as [|p ps] eqn:EP0; [destruct fuel; reflexivity|].
  rewrite <- EP0. rewrite loop_step_loads by congruence.
  assert (Hall : filter (fun q => exists_at q 0) P = P).
  { clear EP0. induction P as [|q l IH]; simpl; [reflexivity|]. rewrite Hex, IH. reflexivity. }
  assert (Hnone : filter (fun q => negb (exists_at q 0)) P = []).
  { clear EP0 Hall. induction P as [|q l IH]; simpl; [reflexivity|]. rewrite Hex. exact IH. }
  cbv zeta. rewrite Hall, Hnone.
  destruct timeout as [to|];
    [destruct (Z.of_nat 0 >? to)%Z|];
    (destruct fuel as [|f]; [lia|]); destruct f; simpl; rewrite ?app_nil_r; reflexivity.
Qed.

Definition ab_map : Map := mkMap "ab" (Some [1%Z]) ["b"; "a"] false.

(** The set of [ab_map]'s outputs iterating as [a] then [b], as it does
    under some hash seeds. *)
Lemma iter_as_available_all_present_witness :
  IterAsAvailable.loop string (fun p => Ok p) (fun _ _ => true) (Some 0%Z) 1
    ["out/a.out"; "out/b.out"] 0
  = (["out/a.out"; "out/b.out"], IterAsAvailable.Returned).
Proof.
  refine (iter_as_available_all_present string (fun p => p) (fun _ _ => true) "out"
            ab_map ["out/a.out"; "out/b.out"] (Some 0%Z) 1 _ _ (fun _ => eq_refl)
            (Nat.lt_0_succ 0)).
  - repeat constructor; simpl; intuition discriminate.
  - intros q. simpl. intuition.
Defined.

(** ** Rerunning *)

Lemma missing_hashes_empty_dir (m : Map) :
  missing_hashes m (Some []) = Ok (hashes m).
Proof.
  unfold missing_hashes. simpl. f_equal.
  induction (hashes m) as [|h hs IH]; simpl; [reflexivity|]. rewrite IH. reflexivity.
Qed.

Lemma map_result_by_hash_unknown (itemdata : list Rerun.item) (hs : list string) (h : string) :
  In h hs -> (forall d, In d itemdata -> Rerun.item_hash d <> h) ->
  Rerun.map_result (Rerun.by_hash itemdata) hs = Err KeyError.
Proof.
  intros Hin Hnot. induction hs as [|x xs IH]; [destruct Hin|]. simpl.
  destruct (Rerun.by_hash itemdata x) as [d|e] eqn:Ed.
  - simpl. destruct Hin as [<-|Hin].
    + exfalso. unfold Rerun.by_hash in Ed.
      destruct (find _ _) as [d'|] eqn:E; [|discriminate]. injection Ed as <-.
      apply find_some in E as [Hd' E]. apply in_rev in Hd'.
      apply String.eqb_eq in E. exact (Hnot d' Hd' E).
    + rewrite (IH Hin). reflexivity.
  - unfold Rerun.by_hash in Ed. simpl.
    destruct (find _ _); [discriminate|]. injection Ed as <-. reflexivity.
Qed.

(** [Map.rerun] empties the outputs directory, removes the map's jobs from
    the queue, resubmits the item data of every input of the map, in the
    map's order, as one new batch, and records that batch's cluster id;
    nothing else of the controller changes. *)
Theorem rerun_resubmits_every_input (c : Rerun.ctl) (l : list Z) (req : string)
    (items : list Rerun.item)
    (Hc : cluster_ids (Rerun.c_map c) = Some l)
    (Hreq : requirements_of (Some l) None = Ok req)
    (Hi : Rerun.map_result (Rerun.by_hash (Rerun.c_itemdata c)) (hashes (Rerun.c_map c))
          = Ok items) :
  Admin.rerun c
  = (Ok tt,
     Rerun.mkCtl
       (mkMap (map_id (Rerun.c_map c)) (Some (app l [Rerun.c_next_cluster c]))
              (hashes (Rerun.c_map c)) (is_removed (Rerun.c_map c)))
       (Some []) (Rerun.c_itemdata c) (Rerun.c_submit c)
       (app (Rerun.c_calls c)
            [Rerun.Act "Remove" req; Rerun.SubmitCall (Rerun.c_submit c) items])
       (Rerun.c_next_cluster c + 1)).
Proof.
  destruct c as [[id cids hs rem] o it sub calls n]. simpl in Hc, Hi. subst cids.
  unfold Admin.rerun, Admin.clean_outputs_dir, Rerun.rerun_incomplete.
  cbn [Rerun.c_map Rerun.c_outputs Rerun.names_of option_map map].
  rewrite missing_hashes_empty_dir. cbn [hashes].
  unfold Rerun.rerun_hashes, Rerun.remove_from_queue. cbn [Rerun.c_map cluster_ids]. rewrite Hreq. simpl.
  rewrite Hi. simpl. rewrite <- app_assoc. reflexivity.
Qed.

Definition rerun_items : list Rerun.item :=
  [Rerun.mkItem "a" "(1,)"; Rerun.mkItem "b" "(2,)"; Rerun.mkItem "c" "(3,)"].

Lemma rerun_resubmits_every_input_witness :
  Admin.rerun rerun_ctl
  = (Ok tt,
     Rerun.mkCtl (mkMap "abc" (Some [12%Z; 13%Z]) ["a"; "b"; "c"] false)
       (Some []) (Rerun.c_itemdata rerun_ctl) (Rerun.c_submit rerun_ctl)
       [Rerun.Act "Remove" "(ClusterId==12)";
        Rerun.SubmitCall (Rerun.c_submit rerun_ctl) rerun_items]
       14%Z).
Proof.
  exact (rerun_resubmits_every_input rerun_ctl [12%Z] "(ClusterId==12)" rerun_items
           eq_refl eq_refl eq_refl).
Defined.

(** On a map whose every output is present, [rerun_incomplete] still
    removes the map's jobs from the queue and submits a batch, with no
    item data, and records its cluster id. *)
Theorem rerun_incomplete_done_map (c : Rerun.ctl) (l : list Z) (req : string)
    (Hd : is_done (Rerun.c_map c) (Rerun.names_of (Rerun.c_outputs c)) = Ok true)
    (Hc : cluster_ids (Rerun.c_map c) = Some l)
    (Hreq : requirements_of (Some l) None = Ok req) :
  Rerun.rerun_incomplete c
  = (Ok tt,
     Rerun.mkCtl
       (mkMap (map_id (Rerun.c_map c)) (Some (app l [Rerun.c_next_cluster c]))
              (hashes (Rerun.c_map c)) (is_removed (Rerun.c_map c)))
       (Rerun.c_outputs c) (Rerun.c_itemdata c) (Rerun.c_submit c)
       (app (Rerun.c_calls c)
            [Rerun.Act "Remove" req; Rerun.SubmitCall (Rerun.c_submit c) []])
       (Rerun.c_next_cluster c + 1)).
Proof.
  destruct c as [[id cids hs rem] o it sub calls n]. simpl in Hc, Hd. subst cids.
  unfold is_done in Hd. unfold Rerun.rerun_incomplete. simpl.
  destruct (missing_hashes _ _) as [miss|e]; [|discriminate]. simpl in Hd.
  injection Hd as Hd. apply Nat.eqb_eq, length_zero_iff_nil in Hd. subst miss.
  unfold Rerun.rerun_hashes, Rerun.remove_from_queue. cbn [Rerun.c_map cluster_ids]. rewrite Hreq. simpl.
  rewrite <- app_assoc. reflexivity.
Qed.

Definition rerun_done_ctl : Rerun.ctl :=
  Rerun.mkCtl abc_map
    (Some [("a.out", []); ("b.out", []); ("c.out", [])])
    rerun_items "executable = run.py" [] 13%Z.

Lemma rerun_incomplete_done_map_witness :
  Rerun.rerun_incomplete rerun_done_ctl
  = (Ok tt,
     Rerun.mkCtl (mkMap "abc" (Some [12%Z; 13%Z]) ["a"; "b"; "c"] false)
       (Rerun.c_outputs rerun_done_ctl) rerun_items "executable = run.py"
       [Rerun.Act "Remove" "(ClusterId==12)"; Rerun.SubmitCall "executable = run.py" []]
       14%Z).
Proof.
  exact (rerun_incomplete_done_map rerun_done_ctl [12%Z] "(ClusterId==12)"
           eq_refl eq_refl eq_refl).
Defined.

(** When a missing input has no entry in the stored item data,
    [rerun_incomplete] raises [KeyError] after the map's jobs were already
    removed from the queue: nothing is resubmitted and no cluster id is
    recorded. *)
Theorem rerun_incomplete_unknown_hash (c : Rerun.ctl) (req : string)
    (miss : list string) (h : string)
    (Hreq : requirements_of (cluster_ids (Rerun.c_map c)) None = Ok req)
    (Hmiss : missing_hashes (Rerun.c_map c) (Rerun.names_of (Rerun.c_outputs c)) = Ok miss)
    (Hin : In h miss)
    (Hnot : forall d, In d (Rerun.c_itemdata c) -> Rerun.item_hash d <> h) :
  Rerun.rerun_incomplete c
  = (Err KeyError,
     Rerun.mkCtl (Rerun.c_map c) (Rerun.c_outputs c) (Rerun.c_itemdata c)
       (Rerun.c_submit c) (app (Rerun.c_calls c) [Rerun.Act "Remove" req])
       (Rerun.c_next_cluster c)).
Proof.
  unfold Rerun.rerun_incomplete. rewrite Hmiss.
  unfold Rerun.rerun_hashes, Rerun.remove_from_queue. rewrite Hreq. simpl.
  rewrite (map_result_by_hash_unknown _ _ h Hin Hnot). reflexivity.
Qed.

Definition rerun_partial_ctl : Rerun.ctl :=
  Rerun.mkCtl abc_map (Some [("a.out", [])])
    [Rerun.mkItem "a" "(1,)"; Rerun.mkItem "c" "(3,)"] "executable = run.py" [] 13%Z.

Lemma rerun_incomplete_unknown_hash_witness :
  Rerun.rerun_incomplete rerun_partial_ctl
  = (Err KeyError,
     Rerun.mkCtl abc_map (Some [("a.out", [])])
       [Rerun.mkItem "a" "(1,)"; Rerun.mkItem "c" "(3,)"] "executable = run.py"
       [Rerun.Act "Remove" "(ClusterId==12)"] 13%Z).
Proof.
  refine (rerun_incomplete_unknown_hash rerun_partial_ctl "(ClusterId==12)" ["b"; "c"] "b"
            eq_refl eq_refl (or_introl eq_refl) _).
  simpl. intros d [<-|[<-|[]]]; simpl; discriminate.
Defined.

(** ** Removing and renaming *)

Lemma existsb_eqb_in (x : string) (l : list string) :
  existsb (String.eqb x) l = true <-> In x l.
Proof.
  rewrite existsb_exists. split.
  - intros [y [Hy E]]. apply String.eqb_eq in E. subst y. exact Hy.
  - intros Hx. exists x. split; [exact Hx | apply String.eqb_refl].
Qed.

Lemma remove_missing_dir_eq (m : Map) (w : Lifecycle.world) (req : string) :
  requirements_of (cluster_ids m) None = Ok req ->
  ~ In (map_id m) (Lifecycle.w_dirs w) ->
  Lifecycle.remove m w
  = (Err FileNotFoundError, m,
     Lifecycle.mkWorld (Lifecycle.w_dirs w) (Lifecycle.w_registry w)
       (app (Lifecycle.w_calls w) [Rerun.Act "Remove" req])).
Proof.
  intros Hreq Hdir. unfold Lifecycle.remove. rewrite Hreq. cbn [Lifecycle.w_dirs].
  destruct (existsb (String.eqb (map_id m)) (Lifecycle.w_dirs w)) eqn:E.
  - apply existsb_eqb_in in E. contradiction.
  - reflexivity.
Qed.

(** [Map.remove] on a map whose directory exists and which is registered
    in [MAPS]: it succeeds, issues one [Remove] action scoped to the map's
    cluster ids, deletes exactly the map's directory, drops exactly the
    map's registry entries and marks the map removed, keeping its id,
    cluster ids and inputs. *)
Theorem remove_deletes_and_unregisters (m : Map) (w : Lifecycle.world) (req : string)
    (Hreq : requirements_of (cluster_ids m) None = Ok req)
    (Hdir : In (map_id m) (Lifecycle.w_dirs w))
    (Hreg : exists v, In (map_id m, v) (Lifecycle.w_registry w)) :
  exists m' w',
    Lifecycle.remove m w = (Ok tt, m', w') /\
    is_removed m' = true /\ map_id m' = map_id m /\
    cluster_ids m' = cluster_ids m /\ hashes m' = hashes m /\
    (forall d, In d (Lifecycle.w_dirs w') <-> In d (Lifecycle.w_dirs w) /\ d <> map_id m) /\
    (forall kv, In kv (Lifecycle.w_registry w') <->
                In kv (Lifecycle.w_registry w) /\ fst kv <> map_id m) /\
    Lifecycle.w_calls w' = app (Lifecycle.w_calls w) [Rerun.Act "Remove" req].
Proof.
  unfold Lifecycle.remove. rewrite Hreq. cbn [Lifecycle.w_dirs Lifecycle.w_registry].
  apply existsb_eqb_in in Hdir. rewrite Hdir.
  unfold Lifecycle.registry_pop.
  assert (Hr : existsb (fun kv => String.eqb (fst kv) (map_id m)) (Lifecycle.w_registry w) = true).
  { apply existsb_exists. destruct Hreg as [v Hv]. exists (map_id m, v).
    split; [exact Hv | apply String.eqb_refl]. }
  rewrite Hr. do 2 eexists. split; [reflexivity|]. cbn.
  repeat split; try reflexivity.
  - match goal with H : In _ (filter _ _) |- _ => apply filter_In in H as [H _]; exact H end.
  - match goal with H : In _ (filter _ _) |- _ => apply filter_In in H as [_ H] end.
    match goal with H : negb _ = true |- _ => apply negb_true_iff, String.eqb_neq in H end.
    congruence.
  - intros [Hd Hne]. apply filter_In. split; [exact Hd|].
    apply negb_true_iff, String.eqb_neq. congruence.
  - match goal with H : In _ (filter _ _) |- _ => apply filter_In in H as [H _]; exact H end.
  - match goal with H : In _ (filter _ _) |- _ => apply filter_In in H as [_ H] end.
    match goal with H : negb _ = true |- _ => apply negb_true_iff, String.eqb_neq in H end.
    assumption.
  - intros [Hk Hne]. apply filter_In. split; [exact Hk|].
    apply negb_true_iff, String.eqb_neq. exact Hne.
Qed.

Definition remove_world : Lifecycle.world :=
  Lifecycle.mkWorld ["abc"; "other"] [("abc", abc_map); ("other", no_batch_map)] [].

Lemma remove_deletes_and_unregisters_witness :
  exists m' w',
    Lifecycle.remove abc_map remove_world = (Ok tt, m', w') /\
    is_removed m' = true /\ map_id m' = "abc" /\
    cluster_ids m' = Some [12%Z] /\ hashes m' = ["a"; "b"; "c"] /\
    (forall d, In d (Lifecycle.w_dirs w') <-> In d ["abc"; "other"] /\ d <> "abc") /\
    (forall kv, In kv (Lifecycle.w_registry w') <->
                In kv [("abc", abc_map); ("other", no_batch_map)] /\ fst kv <> "abc") /\
    Lifecycle.w_calls w' = [Rerun.Act "Remove" "(ClusterId==12)"].
Proof.
  exact (remove_deletes_and_unregisters abc_map remove_world "(ClusterId==12)"
           eq_refl (or_introl eq_refl) (ex_intro _ abc_map (or_introl eq_refl))).
Defined.

(** When the map's directory no longer exists, [Map.remove] raises
    [FileNotFoundError] after it has already issued the [Remove] action;
    the map is not marked removed and its [MAPS] entry stays. *)
Theorem remove_missing_dir_raises (m : Map) (w : Lifecycle.world) (req : string)
    (Hreq : requirements_of (cluster_ids m) None = Ok req)
    (Hdir : ~ In (map_id m) (Lifecycle.w_dirs w)) :
  Lifecycle.remove m w
  = (Err FileNotFoundError, m,
     Lifecycle.mkWorld (Lifecycle.w_dirs w) (Lifecycle.w_registry w)
       (app (Lifecycle.w_calls w) [Rerun.Act "Remove" req])).
Proof. exact (remove_missing_dir_eq m w req Hreq Hdir). Qed.

Lemma remove_missing_dir_raises_witness :
  Lifecycle.remove abc_map (Lifecycle.mkWorld ["other"] [("abc", abc_map)] [])
  = (Err FileNotFoundError, abc_map,
     Lifecycle.mkWorld ["other"] [("abc", abc_map)] [Rerun.Act "Remove" "(ClusterId==12)"]).
Proof.
  refine (remove_missing_dir_raises abc_map _ "(ClusterId==12)" eq_refl _).
  simpl. intros [H|[]]. discriminate.
Defined.

(** Removing a map twice: when a call of [m.remove()] succeeds, calling
    [remove] again on the object it left goes through [_protector] and
    raises [MapWasRemoved], with no second [Remove] action and nothing else
    changed. *)
Theorem remove_twice_raises (m m' : Map) (w w' : Lifecycle.world)
    (H1 : invoke Lifecycle.world Map_protected "remove" Lifecycle.remove m w
          = (Ok tt, m', w')) :
  invoke Lifecycle.world Map_protected "remove" Lifecycle.remove m' w'
  = (Err MapWasRemoved, m', w').
Proof.
  unfold invoke in *. replace (is_wrapped Map_protected "remove") with true in * by reflexivity.
  unfold protector in *.
  destruct (is_removed m); [discriminate|].
  assert (Hm' : is_removed m' = true).
  { unfold Lifecycle.remove in H1.
    destruct (requirements_of (cluster_ids m) None); [|discriminate].
    cbn [Lifecycle.w_dirs Lifecycle.w_registry] in H1.
    destruct (existsb _ _); [|discriminate].
    destruct (Lifecycle.registry_pop _ _); [|discriminate].
    injection H1 as <- _. reflexivity. }
  rewrite Hm'. reflexivity.
Qed.

Lemma remove_twice_raises_witness :
  invoke Lifecycle.world Map_protected "remove" Lifecycle.remove abc_map remove_world
  = (Ok tt, Lifecycle.set_removed abc_map,
     Lifecycle.mkWorld ["other"] [("other", no_batch_map)]
       [Rerun.Act "Remove" "(ClusterId==12)"]) /\
  invoke Lifecycle.world Map_protected "remove" Lifecycle.remove
    (Lifecycle.set_removed abc_map)
    (Lifecycle.mkWorld ["other"] [("other", no_batch_map)]
       [Rerun.Act "Remove" "(ClusterId==12)"])
  = (Err MapWasRemoved, Lifecycle.set_removed abc_map,
     Lifecycle.mkWorld ["other"] [("other", no_batch_map)]
       [Rerun.Act "Remove" "(ClusterId==12)"]).
Proof.
  assert (H1 : invoke Lifecycle.world Map_protected "remove" Lifecycle.remove abc_map remove_world
               = (Ok tt, Lifecycle.set_removed abc_map,
                  Lifecycle.mkWorld ["other"] [("other", no_batch_map)]
                    [Rerun.Act "Remove" "(ClusterId==12)"]))
    by (vm_compute; reflexivity).
  split; [exact H1|].
  exact (remove_twice_raises abc_map (Lifecycle.set_removed abc_map) remove_world _ H1).
Defined.

(** [Map.remove] on a map whose directory exists but which is not in
    [MAPS]: the directory is deleted and the map marked removed, then
    [MAPS.pop] raises [KeyError]. *)
Theorem remove_unregistered_raises_keyerror (m : Map) (w : Lifecycle.world) (req : string)
    (Hreq : requirements_of (cluster_ids m) None = Ok req)
    (Hdir : In (map_id m) (Lifecycle.w_dirs w))
    (Hreg : forall v, ~ In (map_id m, v) (Lifecycle.w_registry w)) :
  exists w',
    Lifecycle.remove m w = (Err KeyError, Lifecycle.set_removed m, w') /\
    ~ In (map_id m) (Lifecycle.w_dirs w') /\
    Lifecycle.w_registry w' = Lifecycle.w_registry w /\
    Lifecycle.w_calls w' = app (Lifecycle.w_calls w) [Rerun.Act "Remove" req].
Proof.
  unfold Lifecycle.remove. rewrite Hreq. cbn [Lifecycle.w_dirs Lifecycle.w_registry].
  apply existsb_eqb_in in Hdir. rewrite Hdir.
  unfold Lifecycle.registry_pop.
  destruct (existsb (fun kv => String.eqb (fst kv) (map_id m)) (Lifecycle.w_registry w)) eqn:E.
  - apply existsb_exists in E as [[k v] [Hkv E]]. apply String.eqb_eq in E.
    simpl in E. subst k. exfalso. exact (Hreg v Hkv).
  - eexists. split; [reflexivity|]. cbn. split; [|split; reflexivity].
    intros Hin. apply filter_In in Hin as [_ Hin].
    rewrite String.eqb_refl in Hin. discriminate.
Qed.

Lemma remove_unregistered_raises_keyerror_witness :
  exists w',
    Lifecycle.remove abc_map (Lifecycle.mkWorld ["abc"] [] [])
    = (Err KeyError, Lifecycle.set_removed abc_map, w') /\
    ~ In "abc" (Lifecycle.w_dirs w') /\
    Lifecycle.w_registry w' = [] /\
    Lifecycle.w_calls w' = [Rerun.Act "Remove" "(ClusterId==12)"].
Proof.
  exact (remove_unregistered_raises_keyerror abc_map (Lifecycle.mkWorld ["abc"] [] [])
           "(ClusterId==12)" eq_refl (or_introl eq_refl) (fun v H => H)).
Defined.

(** [Map.rename] gets past its first two checks exactly when the new id
    differs from the map's id and the map is done; otherwise it raises. *)
Theorem rename_checks_pass_iff (xquery : string -> list string -> result (list classad))
    (m : Map) (d : outputs_dir) (new_id : string) :
  Lifecycle.rename_checks xquery m d new_id = Ok tt
  <-> new_id <> map_id m /\ is_done m d = Ok true.
Proof.
  unfold Lifecycle.rename_checks.
  destruct (String.eqb new_id (map_id m)) eqn:E.
  - apply String.eqb_eq in E. split; [discriminate|]. intros [H _]. contradiction.
  - apply String.eqb_neq in E.
    destruct (is_done m d) as [[|]|e]; simpl.
    + split; [intros _; split; [exact E | reflexivity] | reflexivity].
    + split; [|intros [_ H]; discriminate].
      destruct (status_counts xquery m d); discriminate.
    + split; [discriminate|]. intros [_ H]; discriminate.
Qed.

(** Renaming a map that is not done and has no cluster ids raises
    [TypeError], not [CannotRenameMap]: the error message calls
    [status_counts], whose query cannot build its requirements. *)
Theorem rename_incomplete_without_cluster_ids
    (xquery : string -> list string -> result (list classad))
    (m : Map) (d : outputs_dir) (new_id : string)
    (Hne : new_id <> map_id m)
    (Hd : is_done m d = Ok false)
    (Hc : cluster_ids m = None) :
  Lifecycle.rename_checks xquery m d new_id = Err TypeError.
Proof.
  unfold Lifecycle.rename_checks.
  apply String.eqb_neq in Hne. rewrite Hne, Hd. simpl.
  unfold status_counts, query. rewrite Hc. reflexivity.
Qed.

Lemma rename_incomplete_without_cluster_ids_witness :
  Lifecycle.rename_checks empty_xquery no_batch_map (Some []) "renamed" = Err TypeError.
Proof.
  apply (rename_incomplete_without_cluster_ids empty_xquery no_batch_map (Some []) "renamed").
  - discriminate.
  - reflexivity.
  - reflexivity.
Defined.


(** ** [hold_reasons] *)

(** [Map.hold_reasons] hands its requirement to [_query], which passes it
    through [_requirements] again: the scheduler is asked for
    [(ClusterId==...) && (ClusterId==...) && JobStatus==<held>], with the
    cluster clause twice. *)
Theorem hold_reasons_doubles_cluster_clause
    (xquery : string -> list string -> result (list classad)) (held_str : string)
    (m : Map) (l : list Z) (Hc : cluster_ids m = Some l) :
  let base := "(" ++ String.concat " || " (map (fun cid => "ClusterId==" ++ str_Z cid) l) ++ ")" in
  hold_reasons_query xquery held_str m
  = xquery (base ++ " && " ++ (base ++ " && " ++ "JobStatus==" ++ held_str))
           ["ProcId"; "HoldReason"; "HoldReasonCode"].
Proof.
  intros base. unfold hold_reasons_query, query, requirements_of. rewrite Hc. simpl.
  destruct (xquery _ _); reflexivity.
Qed.

Definition doubled_clause_xquery (req : string) (proj : list string)
  : result (list classad) :=
  if String.eqb req "(ClusterId==12) && (ClusterId==12) && JobStatus==Held"
  then Ok [] else Err ValueError.

Lemma hold_reasons_doubles_cluster_clause_witness :
  hold_reasons_query doubled_clause_xquery "Held" abc_map = Ok [].
Proof.
  exact (hold_reasons_doubles_cluster_clause doubled_clause_xquery "Held" abc_map [12%Z]
           eq_refl).
Defined.
